(** * ArXiv Insight: selection geometry, viewer session and insight requests

  A shallow embedding of the React front end:
  - [Types]          the records and the enum of [types.ts];
  - [Js]             completions of JavaScript calls (return or throw);
  - [GeminiService]  [generateInsight] of [services/geminiService.ts];
  - [PDFPage]        the per-page pointer handlers of [components/PaperViewer.tsx];
  - [RenderedPage]   the same handlers with the page's renders made explicit;
  - [PaperViewer]    the document handle, the active page and the mounted pages;
  - [App]            the orchestrator of [App.tsx] and the whole session.

  React state is threaded explicitly: every handler is a function from the
  state it reads to the state it leaves, together with what it reports to
  its parent.  One event of the browser's event loop (the handler, the
  re-render and the effects the re-render schedules) is one step; in
  [RenderedPage] the re-render is a step of its own, and a handler reads
  the cells as the last render saw them.
  Surface coordinates are modelled as integers ([Z]); [Date.now()] is an
  integer number of milliseconds supplied by the environment. *)

From Stdlib Require Import ZArith String List Bool Lia.
From stdpp Require Import base tactics option list strings pretty gmap.
Import ListNotations.

Local Open Scope Z_scope.

(** ** types.ts *)

Module Types.

Inductive InsightType := EXPLAIN | SLIDE | INFOGRAPHIC | CODE | SUMMARY.

Definition InsightType_eqb (a b : InsightType) : bool :=
  match a, b with
  | EXPLAIN, EXPLAIN | SLIDE, SLIDE | INFOGRAPHIC, INFOGRAPHIC
  | CODE, CODE | SUMMARY, SUMMARY => true
  | _, _ => false
  end.

Record BoundingBox := mkBox { x : Z; y : Z; width : Z; height : Z }.

Record SelectionData := mkSelection {
  pageNumber : nat;
  rect : BoundingBox;
  imageBase64 : string
}.

Record InsightResult := mkInsight {
  id : string;
  type : InsightType;
  content : string;
  isLoading : bool;
  timestamp : Z
}.

End Types.
Import Types.

(** ** Completions: a call returns a value or throws one *)

Module Js.

(** What a [catch] clause can receive: an [Error] object with its
    [message], or any other value, kept as what [String(_)] makes of it. *)
Inductive Thrown :=
| ErrorObject (message : string)
| OtherValue (asString : string).

Inductive Completion (A : Type) :=
| Normal (a : A)
| Throw (e : Thrown).
Arguments Normal {A} a.
Arguments Throw {A} e.

Definition bind {A B} (c : Completion A) (k : A -> Completion B) : Completion B :=
  match c with
  | Normal a => k a
  | Throw e => Throw e
  end.

(** [try { body } catch (error) { handler }] *)
Definition try_catch {A} (body : Completion A) (handler : Thrown -> Completion A)
  : Completion A :=
  match body with
  | Normal a => Normal a
  | Throw e => handler e
  end.

Definition settled_ok {A} (c : Completion A) : bool :=
  match c with Normal _ => true | Throw _ => false end.

(** [error instanceof Error ? error.message : String(error)] *)
Definition describe (error : Thrown) : string :=
  match error with
  | ErrorObject message => message
  | OtherValue asString => asString
  end.

End Js.
Import Js.

Notation "'let*' x ':=' c 'in' k" := (Js.bind c (fun x => k))
(at level 10, x name, c at level 100, k at level 200).

(** ** services/geminiService.ts *)

Module GeminiService.

Record InlineData := mkInline { data : option string }.
Record Part := mkPart { inlineData : option InlineData }.
Record Content := mkContent { parts : option (list Part) }.
Record Candidate := mkCandidate { candidateContent : option Content }.
Record Response := mkResponse {
  candidates : option (list Candidate);
  text : option string
}.

Record Request := mkRequest {
  model : string;
  promptText : string;
  mimeType : string;
  imageData : string;
  imageConfig : option (string * string)
}.

(** [s.replace(/^prefix/, '')] for a literal prefix: [None] when [s] does
    not start with it. *)
Fixpoint strip_prefix (p s : string) : option string :=
  match p, s with
  | EmptyString, _ => Some s
  | String a p', String b s' => if Ascii.eqb a b then strip_prefix p' s' else None
  | String _ _, EmptyString => None
  end.

(** [imageBase64.replace(/^data:image\/(png|jpeg|jpg);base64,/, '')] *)
Definition cleanBase64 (imageBase64 : string) : string :=
  match strip_prefix "data:image/png;base64," imageBase64 with
  | Some rest => rest
  | None =>
    match strip_prefix "data:image/jpeg;base64," imageBase64 with
    | Some rest => rest
    | None =>
      match strip_prefix "data:image/jpg;base64," imageBase64 with
      | Some rest => rest
      | None => imageBase64
      end
    end
  end.

Definition modelName (type : InsightType) : string :=
  if InsightType_eqb type INFOGRAPHIC
  then "gemini-3-pro-image-preview"
  else "gemini-3-pro-preview".

Definition latexInstruction : string :=
  "Use LaTeX for all math equations. Wrap inline math in $...$ and block math in $$...$$. Do not use \( \) or \[ \].".

Definition basePrompt (type : InsightType) : string :=
  match type with
  | EXPLAIN =>
      "Analyze the selected section from this academic paper. Provide a clear, concise explanation of the concepts, equations, or figures shown. If it is an equation, break it down variable by variable. "
      +:+ latexInstruction
  | SLIDE =>
      "Create the content for a presentation slide based on this selection. Output in Markdown format with a Title, Bullet Points, and a Speaker Note. "
      +:+ latexInstruction
  | CODE =>
      "The selection appears to contain an algorithm, equation, or data structure. Generate Python code that implements or simulates this. Provide comments explaining the code. "
      +:+ latexInstruction
  | SUMMARY =>
      "Summarize the key information presented in this visual page context. "
      +:+ latexInstruction
  | INFOGRAPHIC =>
      "Redesign this figure as a modern, high-quality, clean, flat-design scientific infographic that explains the concept clearly. Return the image."
  end.

Definition newline : string := String (Ascii.ascii_of_nat 10) EmptyString.

(** [if (context) prompt += ...]: an absent or empty context is falsy. *)
Definition prompt (type : InsightType) (context : option string) : string :=
  match context with
  | Some (String c rest) =>
      basePrompt type +:+ newline +:+ "Additional Context: " +:+ String c rest
  | _ => basePrompt type
  end.

(** [response.candidates?.[0]?.content?.parts || []] *)
Definition firstCandidateParts (response : Response) : list Part :=
  match candidates response with
  | Some (c :: _) =>
      match candidateContent c with
      | Some ct => match parts ct with Some ps => ps | None => [] end
      | None => []
      end
  | _ => []
  end.

(** [`${part.inlineData.data}`]: an absent field prints as [undefined]. *)
Definition dataText (d : InlineData) : string :=
  match data d with Some s => s | None => "undefined" end.

(** The [for (const part of ...)] loop with its early [return]. *)
Fixpoint extractImage (ps : list Part) : string :=
  match ps with
  | [] => "No image generated."
  | p :: rest =>
      match inlineData p with
      | Some d => "data:image/png;base64," +:+ dataText d
      | None => extractImage rest
      end
  end.

(** [response.text || "No response generated."] *)
Definition textOrFallback (response : Response) : string :=
  match text response with
  | Some (String c rest) => String c rest
  | _ => "No response generated."
  end.

Section Service.
(** The client library is not part of the repository: its constructor
    and its [models.generateContent] are parameters, each a call that
    may return or throw.  [apiKey] is [process.env.API_KEY]. *)
Context {Client : Type}.
Variable newGoogleGenAI : option string -> Completion Client.
Variable generateContent : Client -> Request -> Completion Response.
Variable apiKey : option string.

Definition request (imageBase64 : string) (type : InsightType)
    (context : option string) : Request :=
  {| model := modelName type;
     promptText := prompt type context;
     mimeType := "image/png";
     imageData := cleanBase64 imageBase64;
     imageConfig :=
       if InsightType_eqb type INFOGRAPHIC then Some ("1K", "1:1") else None |}.

(** The body of the [try] block. *)
Definition generateInsight_try (ai : Client) (imageBase64 : string)
    (type : InsightType) (context : option string) : Completion string :=
  if InsightType_eqb type INFOGRAPHIC then
    let* response := generateContent ai (request imageBase64 type context) in
    Normal (extractImage (firstCandidateParts response))
  else
    let* response := generateContent ai (request imageBase64 type context) in
    Normal (textOrFallback response).

(** The [catch] clause. *)
Definition generateInsight_catch (error : Thrown) : Completion string :=
  Normal ("Error generating insight: " +:+ describe error).

(** The client is built before the [try] block is entered. *)
Definition generateInsight (imageBase64 : string) (type : InsightType)
    (context : option string) : Completion string :=
  let* ai := newGoogleGenAI apiKey in
  try_catch (generateInsight_try ai imageBase64 type context)
            generateInsight_catch.
End Service.

End GeminiService.

(** ** components/PaperViewer.tsx: one page *)

Module PDFPage.

Record Point := mkPoint { px : Z; py : Z }.

(** What the handlers read of [canvas.getBoundingClientRect()]. *)
Record DOMRect := mkRect { left : Z; top : Z }.

Record MouseEvent := mkMouse { clientX : Z; clientY : Z }.

(** [selectionBox] and [isSelecting] are [useState] cells, [startPos] is
    a [useRef] cell.  The [rendering] flag only drives the spinner and is
    left out. *)
Record State := mkPage {
  selectionBox : option BoundingBox;
  isSelecting : bool;
  startPos : option Point
}.

Definition initial : State :=
  {| selectionBox := None; isSelecting := false; startPos := None |}.

(** What a handler reports to its parent through the callback props. *)
Inductive Report :=
| SelectionStart (page : nat)
| SelectionComplete (data : SelectionData).

(** [canvas] is [canvasRef.current]: [None] while no canvas is mounted. *)
Definition getCanvasCoordinates (canvas : option DOMRect) (e : MouseEvent) : Point :=
  match canvas with
  | None => {| px := 0; py := 0 |}
  | Some rect => {| px := clientX e - left rect; py := clientY e - top rect |}
  end.

Definition handleMouseDown (pageNum : nat) (canvas : option DOMRect)
    (e : MouseEvent) (st : State) : State * list Report :=
  let p := getCanvasCoordinates canvas e in
  ({| selectionBox := Some {| x := px p; y := py p; width := 0; height := 0 |};
      isSelecting := true;
      startPos := Some p |},
   [SelectionStart pageNum]).

Definition handleMouseMove (canvas : option DOMRect) (e : MouseEvent)
    (st : State) : State * list Report :=
  if negb (isSelecting st) then (st, [])
  else
    match startPos st with
    | None => (st, [])
    | Some start =>
        let p := getCanvasCoordinates canvas e in
        let w := px p - px start in
        let h := py p - py start in
        ({| selectionBox :=
              Some {| x := if 0 <? w then px start else px p;
                      y := if 0 <? h then py start else py p;
                      width := Z.abs w;
                      height := Z.abs h |};
            isSelecting := isSelecting st;
            startPos := startPos st |},
         [])
    end.

(** [snapshot] is what cropping the canvas to the box into a fresh
    off-screen canvas and [toDataURL] give: [None] when
    [tempCanvas.getContext('2d')] returns [null]. *)
Definition handleMouseUp (pageNum : nat) (canvas : option DOMRect)
    (snapshot : option string) (st : State) : State * list Report :=
  match isSelecting st, selectionBox st, canvas with
  | true, Some box, Some _ =>
      if (width box <? 10) || (height box <? 10) then
        ({| selectionBox := None; isSelecting := false; startPos := None |}, [])
      else
        let st' := {| selectionBox := Some box; isSelecting := false;
                      startPos := None |} in
        match snapshot with
        | Some image =>
            (st', [SelectionComplete {| pageNumber := pageNum; rect := box;
                                        imageBase64 := image |}])
        | None => (st', [])
        end
  | _, _, _ =>
      ({| selectionBox := selectionBox st; isSelecting := false;
          startPos := startPos st |}, [])
  end.

(** The effect on [isSelectionActive], when it runs with the flag off. *)
Definition clearSelection (st : State) : State :=
  {| selectionBox := None; isSelecting := isSelecting st; startPos := startPos st |}.

(** A drag: pointer-down, then pointer-moves in order. *)
Definition moves (ms : list (option DOMRect * MouseEvent)) (st : State) : State :=
  fold_left (fun s m => fst (handleMouseMove (fst m) (snd m) s)) ms st.

Definition drag (pageNum : nat) (down : option DOMRect * MouseEvent)
    (ms : list (option DOMRect * MouseEvent)) (st : State) : State :=
  moves ms (fst (handleMouseDown pageNum (fst down) (snd down) st)).

(** The box spanned by two corners, as the spec words it: top-left corner
    and absolute extents. *)
Definition spanned (a b : Point) : BoundingBox :=
  {| x := Z.min (px a) (px b);
     y := Z.min (py a) (py b);
     width := Z.abs (px b - px a);
     height := Z.abs (py b - py a) |}.

Definition emitted (reports : list Report) : list SelectionData :=
  omap (fun r => match r with SelectionComplete d => Some d | _ => None end) reports.

End PDFPage.

(** ** components/PaperViewer.tsx: the viewer *)

Module PaperViewer.

(** The pdf.js document handle; the viewer reads [numPages] only. *)
Record Doc := mkDoc { docName : string; numPages : nat }.

(** [pages] holds the state of the mounted [PDFPage] components, keyed by
    page number as React keys them.  The zoom [scale] is a float that no
    handler below reads; it is left out. *)
Record State := mkViewer {
  pdfDoc : option Doc;
  activeSelectionPage : option nat;
  pages : gmap nat PDFPage.State
}.

Definition initial : State :=
  {| pdfDoc := None; activeSelectionPage := None; pages := ∅ |}.

(** Pages [1..numPages] are rendered; a page that stays keeps its state, a
    new one starts from [PDFPage.initial], the others are unmounted. *)
Definition mount (doc : option Doc) (old : gmap nat PDFPage.State)
  : gmap nat PDFPage.State :=
  match doc with
  | None => ∅
  | Some d =>
      list_to_map
        ((fun n => (n, default PDFPage.initial (old !! n))) <$> seq 1 (numPages d))
  end.

Definition setPdfDoc (doc : option Doc) (v : State) : State :=
  {| pdfDoc := doc;
     activeSelectionPage := activeSelectionPage v;
     pages := mount doc (pages v) |}.

(** [fileReader.onload]: [parsed] is how [getDocument(...).promise]
    settles.  The [catch] clause logs and returns. *)
Definition onload (parsed : Completion Doc) (v : State) : Completion State :=
  try_catch
    (let* doc := parsed in Normal (setPdfDoc (Some doc) v))
    (fun error => Normal v).

Definition handleSelectionStart (pageNum : nat) (v : State) : State :=
  {| pdfDoc := pdfDoc v;
     activeSelectionPage := Some pageNum;
     pages := pages v |}.

(** The effect of each page on its [isSelectionActive] prop runs when the
    prop changed; it clears the box when the prop is now false.  Only the
    page that was active before can see its prop turn false. *)
Definition flushEffects (before : option nat) (v : State) : State :=
  match before with
  | Some a =>
      if bool_decide (activeSelectionPage v = Some a) then v
      else {| pdfDoc := pdfDoc v;
              activeSelectionPage := activeSelectionPage v;
              pages := alter PDFPage.clearSelection a (pages v) |}
  | None => v
  end.

Definition report (v : State) (r : PDFPage.Report) : State :=
  match r with
  | PDFPage.SelectionStart n => handleSelectionStart n v
  | PDFPage.SelectionComplete _ => v
  end.

(** Run a handler of page [n]: store the page's new state, pass its
    reports on, then let the effects run.  The [SelectionData] are handed
    to the parent's [onSelectionComplete]. *)
Definition onPage (n : nat)
    (handler : PDFPage.State -> PDFPage.State * list PDFPage.Report)
    (v : State) : State * list SelectionData :=
  match pages v !! n with
  | None => (v, [])
  | Some st =>
      let '(st', reports) := handler st in
      let v1 := {| pdfDoc := pdfDoc v;
                   activeSelectionPage := activeSelectionPage v;
                   pages := <[n := st']> (pages v) |} in
      (flushEffects (activeSelectionPage v) (fold_left report reports v1),
       PDFPage.emitted reports)
  end.

Definition showsBox (v : State) (n : nat) : Prop :=
  exists st box, pages v !! n = Some st /\ PDFPage.selectionBox st = Some box.

End PaperViewer.

(** ** App.tsx *)

Module App.
Import PaperViewer.

Record File := mkFile { fileName : string }.

(** The [useState] cells of [App] that the handlers below touch, and the
    state of its [PaperViewer] child.  The API-key gate and the sidebar
    width do not interact with them. *)
Record State := mkApp {
  file : option File;
  insights : list InsightResult;
  currentSelection : option SelectionData;
  viewer : PaperViewer.State
}.

Definition initial : State :=
  {| file := None; insights := []; currentSelection := None;
     viewer := PaperViewer.initial |}.

(** The calls of [setInsights], one constructor per updater function. *)
Inductive Update :=
| Append (r : InsightResult)
| Settle (target : string) (text : string)
| Filter (target : string)
| Clear.

(** [{ ...i, content: text, isLoading: false }] *)
Definition finished (i : InsightResult) (text : string) : InsightResult :=
  {| id := id i; type := type i; content := text; isLoading := false;
     timestamp := timestamp i |}.

Definition apply (u : Update) (prev : list InsightResult) : list InsightResult :=
  match u with
  | Append r => prev ++ [r]
  | Settle target text =>
      (fun i => if String.eqb (id i) target then finished i text else i) <$> prev
  | Filter target =>
      filter (fun i => negb (String.eqb (id i) target) = true) prev
  | Clear => []
  end.

Definition setInsights (us : list Update) (s : State) : State :=
  {| file := file s;
     insights := fold_left (fun l u => apply u l) us (insights s);
     currentSelection := currentSelection s;
     viewer := viewer s |}.

Definition setViewer (v : PaperViewer.State) (s : State) : State :=
  {| file := file s; insights := insights s;
     currentSelection := currentSelection s; viewer := v |}.

(** [e.target.files && e.target.files[0]] guards the three setters. *)
Definition handleFileUpload (files : option (list File)) (s : State) : State :=
  match files with
  | Some (f :: _) =>
      {| file := Some f; insights := []; currentSelection := None;
         viewer := viewer s |}
  | _ => s
  end.

Definition handleSelectionComplete (data : SelectionData) (s : State) : State :=
  {| file := file s; insights := insights s;
     currentSelection := Some data; viewer := viewer s |}.

Definition cancelSelection (s : State) : State :=
  {| file := file s; insights := insights s;
     currentSelection := None; viewer := viewer s |}.

(** [nowId] and [nowTs] are the two readings of [Date.now()]. *)
Definition newInsight (type : InsightType) (nowId nowTs : Z) : InsightResult :=
  {| id := pretty nowId; type := type; content := ""; isLoading := true;
     timestamp := nowTs |}.

(** [handleAction] up to its [await]: the updates it issues and the
    request it sends, as (image, type). *)
Definition handleAction_begin (type : InsightType) (nowId nowTs : Z) (s : State)
  : list Update * option (string * InsightType) :=
  match currentSelection s with
  | None => ([], None)
  | Some sel => ([Append (newInsight type nowId nowTs)], Some (imageBase64 sel, type))
  end.

(** [handleAction] from its [await] on: [outcome] is how the promise of
    [generateInsight] settled. *)
Definition handleAction_resume (newId : string) (outcome : Completion string)
  : Completion (list Update) :=
  try_catch
    (let* result := outcome in Normal [Settle newId result])
    (fun error => Normal [Settle newId "Error processing request."]).

Definition removeInsight (target : string) : list Update := [Filter target].

(** The updates of a completion that returned; a completion that threw
    would leave the state as it was. *)
Definition issued (c : Completion (list Update)) : list Update :=
  match c with Normal us => us | Throw _ => [] end.

Definition landed {A} (c : Completion A) (otherwise : A) : A :=
  match c with Normal a => a | Throw _ => otherwise end.

(** What the event loop delivers. *)
Inductive Event :=
| FileChosen (files : option (list File))
| PdfParsed (parsed : Completion Doc)
| MouseDown (page : nat) (canvas : option PDFPage.DOMRect) (e : PDFPage.MouseEvent)
| MouseMove (page : nat) (canvas : option PDFPage.DOMRect) (e : PDFPage.MouseEvent)
| MouseUp (page : nat) (canvas : option PDFPage.DOMRect) (snapshot : option string)
| MouseLeave (page : nat) (canvas : option PDFPage.DOMRect) (snapshot : option string)
| ActionClicked (type : InsightType) (nowId nowTs : Z)
| RequestSettled (newId : string) (outcome : Completion string)
| CloseClicked (target : string)
| CancelClicked.

Definition pointer (n : nat)
    (handler : PDFPage.State -> PDFPage.State * list PDFPage.Report)
    (s : State) : State :=
  let '(v, datas) := onPage n handler (viewer s) in
  fold_left (fun s d => handleSelectionComplete d s) datas (setViewer v s).

Definition step (ev : Event) (s : State) : State :=
  match ev with
  | FileChosen files => handleFileUpload files s
  | PdfParsed parsed => setViewer (landed (onload parsed (viewer s)) (viewer s)) s
  | MouseDown n canvas e => pointer n (PDFPage.handleMouseDown n canvas e) s
  | MouseMove n canvas e => pointer n (PDFPage.handleMouseMove canvas e) s
  | MouseUp n canvas snapshot => pointer n (PDFPage.handleMouseUp n canvas snapshot) s
  | MouseLeave n canvas snapshot => pointer n (PDFPage.handleMouseUp n canvas snapshot) s
  | ActionClicked type nowId nowTs =>
      setInsights (fst (handleAction_begin type nowId nowTs s)) s
  | RequestSettled newId outcome =>
      setInsights (issued (handleAction_resume newId outcome)) s
  | CloseClicked target => setInsights (removeInsight target) s
  | CancelClicked => cancelSelection s
  end.

Definition run (trace : list Event) (s : State) : State :=
  fold_left (fun s ev => step ev s) trace s.

Definition ids (s : State) : list string := id <$> insights s.

(** The [Date.now()] readings that became identifiers along a trace from
  [s]: those of the actions taken while a selection was committed. *)
Fixpoint idClocks (trace : list Event) (s : State) : list Z :=
match trace with
| [] => []
| ev :: rest =>
    match ev, currentSelection s with
    | ActionClicked _ nowId _, Some _ => nowId :: idClocks rest (step ev s)
    | _, _ => idClocks rest (step ev s)
    end
end.

(** One pointer: it is over at most one page, and it reaches another page
    only after the page it was over has seen it leave.  [over] is the page
    that received the last pointer event and no leave since. *)
Fixpoint singlePointer (over : option nat) (trace : list Event) : bool :=
  let free n := match over with None => true | Some m => Nat.eqb m n end in
  match trace with
  | [] => true
  | MouseDown n _ _ :: rest => free n && singlePointer (Some n) rest
  | MouseMove n _ _ :: rest => free n && singlePointer (Some n) rest
  | MouseUp n _ _ :: rest => free n && singlePointer (Some n) rest
  | MouseLeave n _ _ :: rest => free n && singlePointer None rest
  | _ :: rest => singlePointer over rest
  end.

End App.

(** * Vocabulary of the statements *)

Section Vocabulary.
Import PaperViewer App.

(** The commit threshold of [handleMouseUp], as the spec words it. *)
Definition tooSmall (box : BoundingBox) : Prop := width box < 10 \/ height box < 10.

(** What a settled request is to show: its result, or the fixed error
  string when the call threw. *)
Definition shown (outcome : Completion string) : string :=
match outcome with
| Normal result => result
| Throw _ => "Error processing request."
end.

(** The invariant: a page that shows a box is the active page, and a page
  in the middle of a drag is both the active page and the page under the
  pointer. *)
Definition overlayInvariant (over : option nat) (v : PaperViewer.State) : Prop :=
(forall p st box,
    pages v !! p = Some st -> PDFPage.selectionBox st = Some box ->
    activeSelectionPage v = Some p) /\
(forall p st,
    pages v !! p = Some st -> PDFPage.isSelecting st = true ->
    over = Some p /\ activeSelectionPage v = Some p).

Definition free (over : option nat) (n : nat) : Prop := over = None \/ over = Some n.

(** The page under the pointer after an event. *)
Definition pointerAfter (ev : Event) (over : option nat) : option nat :=
match ev with
| MouseDown n _ _ | MouseMove n _ _ | MouseUp n _ _ => Some n
| MouseLeave _ _ _ => None
| _ => over
end.

(** ** Sample sessions *)

Definition sampleCanvas : option PDFPage.DOMRect := Some (PDFPage.mkRect 0 0).

Definition sampleDoc : PaperViewer.Doc := PaperViewer.mkDoc "paper.pdf" 3.

(** Upload a paper, let it parse, drag a 50 by 50 box on page 1. *)
Definition selectOnPage1 : list Event :=
[ FileChosen (Some [mkFile "paper.pdf"]);
  PdfParsed (Normal sampleDoc);
  MouseDown 1 sampleCanvas (PDFPage.mkMouse 10 10);
  MouseMove 1 sampleCanvas (PDFPage.mkMouse 60 60);
  MouseUp 1 sampleCanvas (Some "data:image/png;base64,iVBORw0KGgo=") ].

(** Two actions on that selection, one millisecond apart. *)
Definition twoActions : list Event :=
selectOnPage1 ++
[ ActionClicked EXPLAIN 1700000000000 1700000000000;
  ActionClicked CODE 1700000000001 1700000000001 ].

(** Two actions on that selection within the same millisecond. *)
Definition twoActionsSameMillisecond : list Event :=
selectOnPage1 ++
[ ActionClicked EXPLAIN 1700000000000 1700000000000;
  ActionClicked CODE 1700000000000 1700000000000 ].

(** Leave page 1 after the selection, then start a drag on page 2. *)
Definition thenDragOnPage2 : list Event :=
selectOnPage1 ++
[ MouseLeave 1 sampleCanvas None;
  MouseDown 2 sampleCanvas (PDFPage.mkMouse 30 40);
  MouseMove 2 sampleCanvas (PDFPage.mkMouse 90 20) ].

(** A client library whose constructor refuses a missing key and whose
  generation call is out of quota. *)
Definition strictConstructor (key : option string) : Completion unit :=
match key with
| Some _ => Normal tt
| None => Throw (ErrorObject "An API Key must be set when running in a browser")
end.

Definition overQuota (ai : unit) (r : GeminiService.Request) : Completion GeminiService.Response :=
Throw (ErrorObject "429 RESOURCE_EXHAUSTED").

End Vocabulary.

(** ** components/InsightPanel.tsx *)

Module InsightPanel.

(** The string values of the enum [InsightType] in [types.ts]. *)
Definition label (t : InsightType) : string :=
  match t with
  | EXPLAIN => "Explain"
  | SLIDE => "Create Slide"
  | INFOGRAPHIC => "Infographic"
  | CODE => "Generate Code"
  | SUMMARY => "Summarize Page"
  end.

(** [toLowerCase] on the letters the labels are made of. *)
Definition lowerAscii (c : Ascii.ascii) : Ascii.ascii :=
  let n := Ascii.nat_of_ascii c in
  if (65 <=? n)%nat && (n <=? 90)%nat then Ascii.ascii_of_nat (n + 32) else c.

Fixpoint toLowerCase (s : string) : string :=
  match s with
  | EmptyString => EmptyString
  | String c rest => String (lowerAscii c) (toLowerCase rest)
  end.

(** The characters [\s] matches among those a label can hold: tab, line
    feed, vertical tab, form feed, carriage return and space. *)
Definition isSpace (c : Ascii.ascii) : bool :=
  let n := Ascii.nat_of_ascii c in
  ((9 <=? n)%nat && (n <=? 13)%nat) || (n =? 32)%nat.

(** [.replace(/\s+/g, '-')]: each maximal run of white space becomes one
    dash.  [inRun] tells that the previous character was white space. *)
Fixpoint dashRuns (inRun : bool) (s : string) : string :=
  match s with
  | EmptyString => EmptyString
  | String c rest =>
      if isSpace c then
        if inRun then dashRuns true rest else String (Ascii.ascii_of_nat 45) (dashRuns true rest)
      else String c (dashRuns false rest)
  end.

Definition slug (t : InsightType) : string := dashRuns false (toLowerCase (label t)).

(** [insight.type === InsightType.INFOGRAPHIC &&
     insight.content.startsWith('data:image')] *)
Definition showsImage (i : InsightResult) : bool :=
  InsightType_eqb (type i) INFOGRAPHIC && String.prefix "data:image" (content i).

(** What the temporary anchor of [downloadInsight] points at: the content
    itself when it is a data URL, a blob of the content otherwise. *)
Inductive Href :=
| DataHref (url : string)
| BlobHref (body : string) (mime : string).

Record Link := mkLink { href : Href; download : string }.

(** [today] is [new Date().toISOString().split('T')[0]].  [None]: the
    function returned at its guard and nothing is downloaded. *)
Definition downloadInsight (today : string) (insight : InsightResult) : option Link :=
  if String.eqb (content insight) EmptyString || isLoading insight then None
  else if showsImage insight then
    Some {| href := DataHref (content insight);
            download := "infographic-" +:+ id insight +:+ "-" +:+ today +:+ ".png" |}
  else
    Some {| href := BlobHref (content insight) "text/markdown";
            download := slug (type insight) +:+ "-" +:+ id insight +:+ "-" +:+ today
                        +:+ ".md" |}.

(** The content area of a card. *)
Inductive Body :=
| Thinking
| Picture (src : string)
| Markdown (source : string).

Record Card := mkCard {
  cardKey : string;
  heading : string;
  downloadButton : bool;
  body : Body
}.

Definition card (insight : InsightResult) : Card :=
  {| cardKey := id insight;
     heading := label (type insight);
     downloadButton := negb (isLoading insight);
     body := if isLoading insight then Thinking
             else if showsImage insight then Picture (content insight)
             else Markdown (content insight) |}.

Inductive Panel :=
| Placeholder
| Cards (cards : list Card).

(** [insights.length === 0] shows the placeholder; otherwise the cards of
    [insights.slice().reverse()]. *)
Definition panel (insights : list InsightResult) : Panel :=
  match insights with
  | [] => Placeholder
  | _ => Cards (card <$> reverse insights)
  end.

End InsightPanel.

(** ** App.tsx: the sidebar resizer *)

Module Resizer.

Record State := mkResizer { panelWidth : Z; isResizing : bool }.

Definition initial : State := {| panelWidth := 400; isResizing := false |}.

Inductive Event :=
| HandleDown
| WindowUp
| WindowMove (clientWidth clientX : Z).

Section Resize.
(** [fits newWidth clientWidth] is the floating-point test
    [newWidth <= document.body.clientWidth * 0.7]; it is taken as a
    parameter. *)
Variable fits : Z -> Z -> bool.

Definition startResizing (s : State) : State :=
  {| panelWidth := panelWidth s; isResizing := true |}.

Definition stopResizing (s : State) : State :=
  {| panelWidth := panelWidth s; isResizing := false |}.

Definition resize (clientWidth clientX : Z) (s : State) : State :=
  if isResizing s then
    let newWidth := clientWidth - clientX in
    if (300 <=? newWidth) && fits newWidth clientWidth
    then {| panelWidth := newWidth; isResizing := isResizing s |}
    else s
  else s.

(** The window listeners are attached only while [isResizing]; [resize]
    tests the flag as well. *)
Definition step (ev : Event) (s : State) : State :=
  match ev with
  | HandleDown => startResizing s
  | WindowUp => if isResizing s then stopResizing s else s
  | WindowMove clientWidth clientX => if isResizing s then resize clientWidth clientX s else s
  end.

Definition run (trace : list Event) (s : State) : State :=
  fold_left (fun s ev => step ev s) trace s.

End Resize.

End Resizer.

(** ** components/PaperViewer.tsx: [renderPage] *)

Module PageRender.

(** What one call of [renderPage] meets: whether [pdfDoc] and
    [canvasRef.current] are there, how [pdfDoc.getPage] settles, whether
    [canvas.getContext('2d')] gives a context, how [page.render(...).promise]
    settles. *)
Record Env := mkEnv {
  docLoaded : bool;
  canvasMounted : bool;
  gotPage : Completion unit;
  context2d : bool;
  drawn : Completion unit
}.

(** The [try] block. *)
Definition renderPage_try (env : Env) : Completion unit :=
  let* page := gotPage env in
  if negb (context2d env) then Normal tt
  else drawn env.

(** [renderPage], as a function of the [rendering] flag: the flag is set
    to [true] after the first guard, and the [finally] clause sets it to
    [false]; the [catch] clause is empty. *)
Definition renderPage (env : Env) (rendering : bool) : Completion bool :=
  if negb (docLoaded env) || negb (canvasMounted env) then Normal rendering
  else
    let* done := try_catch (renderPage_try env) (fun error => Normal tt) in
    Normal false.

End PageRender.

(** ** More vocabulary *)

Section MoreVocabulary.
Import App.




(** A burst of actions, each with its two clock readings. *)
Definition clicks (actions : list (InsightType * Z * Z)) : list Event :=
  (fun a => ActionClicked a.1.1 a.1.2 a.2) <$> actions.

Definition created (actions : list (InsightType * Z * Z)) : list InsightResult :=
  (fun a => newInsight a.1.1 a.1.2 a.2) <$> actions.

(** The events that can change the committed selection. *)
Definition touchesSelection (ev : Event) : bool :=
  match ev with
  | FileChosen _ | MouseUp _ _ _ | MouseLeave _ _ _ | CancelClicked => true
  | _ => false
  end.

(** A generation call that answers with a text. *)
Definition answering (text : string) (ai : unit) (r : GeminiService.Request)
  : Completion GeminiService.Response :=
  Normal {| GeminiService.candidates := None; GeminiService.text := Some text |}.

(** The mounted pages are the pages of the document on display. *)
Definition pagesMatchDocument (v : PaperViewer.State) : Prop :=
  forall n, is_Some (PaperViewer.pages v !! n) <->
            exists d, PaperViewer.pdfDoc v = Some d /\
                      (1 <= n <= PaperViewer.numPages d)%nat.

End MoreVocabulary.

(** ** components/PaperViewer.tsx: one page, with its renders *)

Module RenderedPage.
Import PDFPage.

(** The handlers of a render close over the values that [isSelecting] and
    [selectionBox] had at that render; the setters write the cells, which
    the next render reads; [startPos] is a ref, read and written in place.
    [cells] holds the current values of the two cells and of the ref,
    [seenBox] and [seenSelecting] what the handlers of the last render see.
    [seenBox] is also what the overlay shows. *)
Record State := mkRendered {
  cells : PDFPage.State;
  seenBox : option BoundingBox;
  seenSelecting : bool
}.

Definition initial : State :=
  {| cells := PDFPage.initial; seenBox := None; seenSelecting := false |}.

(** A re-render: the handlers are made anew over the current cells. *)
Definition render (st : State) : State :=
  {| cells := cells st;
     seenBox := selectionBox (cells st);
     seenSelecting := isSelecting (cells st) |}.

Definition handleMouseDown (pageNum : nat) (canvas : option DOMRect)
    (e : MouseEvent) (st : State) : State * list Report :=
  let p := getCanvasCoordinates canvas e in
  ({| cells :=
        {| selectionBox := Some {| x := px p; y := py p; width := 0; height := 0 |};
           isSelecting := true;
           startPos := Some p |};
      seenBox := seenBox st;
      seenSelecting := seenSelecting st |},
   [SelectionStart pageNum]).

Definition handleMouseMove (canvas : option DOMRect) (e : MouseEvent)
    (st : State) : State * list Report :=
  if negb (seenSelecting st) then (st, [])
  else
    match startPos (cells st) with
    | None => (st, [])
    | Some start =>
        let p := getCanvasCoordinates canvas e in
        let w := px p - px start in
        let h := py p - py start in
        ({| cells :=
              {| selectionBox :=
                   Some {| x := if 0 <? w then px start else px p;
                           y := if 0 <? h then py start else py p;
                           width := Z.abs w;
                           height := Z.abs h |};
                 isSelecting := isSelecting (cells st);
                 startPos := startPos (cells st) |};
            seenBox := seenBox st;
            seenSelecting := seenSelecting st |},
         [])
    end.

(** [snapshot] as for [PDFPage.handleMouseUp].  The test and the report
    use the box of the render; the cell is written only to clear it. *)
Definition handleMouseUp (pageNum : nat) (canvas : option DOMRect)
    (snapshot : option string) (st : State) : State * list Report :=
  match seenSelecting st, seenBox st, canvas with
  | true, Some box, Some _ =>
      if (width box <? 10) || (height box <? 10) then
        ({| cells := {| selectionBox := None; isSelecting := false; startPos := None |};
            seenBox := seenBox st;
            seenSelecting := seenSelecting st |}, [])
      else
        let st' := {| cells := {| selectionBox := selectionBox (cells st);
                                  isSelecting := false; startPos := None |};
                      seenBox := seenBox st;
                      seenSelecting := seenSelecting st |} in
        match snapshot with
        | Some image =>
            (st', [SelectionComplete {| pageNumber := pageNum; rect := box;
                                        imageBase64 := image |}])
        | None => (st', [])
        end
  | _, _, _ =>
      ({| cells := {| selectionBox := selectionBox (cells st); isSelecting := false;
                      startPos := startPos (cells st) |};
          seenBox := seenBox st;
          seenSelecting := seenSelecting st |}, [])
  end.


(** A drag during which the page re-renders after every event. *)
Definition moves (ms : list (option DOMRect * MouseEvent)) (st : State) : State :=
  fold_left (fun s m => render (fst (handleMouseMove (fst m) (snd m) s))) ms st.

Definition drag (pageNum : nat) (down : option DOMRect * MouseEvent)
    (ms : list (option DOMRect * MouseEvent)) (st : State) : State :=
  moves ms (render (fst (handleMouseDown pageNum (fst down) (snd down) st))).

End RenderedPage.

(** ** Vocabulary of the lifecycle *)

Section LifecycleVocabulary.
Import App.




End LifecycleVocabulary.

(** Case analysis on an event, with the names of its fields. *)
Ltac event_cases ev :=
  destruct ev as [files|parsed|n c e|n c e|n c sn|n c sn|ty nowId nowTs|newId outcome|target|].

(** * Selection geometry of one page *)

Section PageSelection.
Import PDFPage.

Lemma spanned_sym (a b : Point) : spanned a b = spanned b a.
Proof.
  unfold spanned. f_equal; try apply Z.min_comm.
  - replace (px a - px b) with (- (px b - px a)) by lia. now rewrite Z.abs_opp.
  - replace (py a - py b) with (- (py b - py a)) by lia. now rewrite Z.abs_opp.
Qed.

Lemma corner_is_min (s p : Z) : (if 0 <? p - s then s else p) = Z.min s p.
Proof. destruct (Z.ltb_spec 0 (p - s)); lia. Qed.

Lemma handleMouseMove_dragging canvas e st a :
  isSelecting st = true -> startPos st = Some a ->
  fst (handleMouseMove canvas e st) =
    {| selectionBox := Some (spanned a (getCanvasCoordinates canvas e));
       isSelecting := true; startPos := Some a |}.
Proof.
  intros Hsel Hstart. unfold handleMouseMove, spanned.
  rewrite Hsel, Hstart. simpl. now rewrite !corner_is_min.
Qed.

Lemma moves_snoc ms m st :
  moves (ms ++ [m]) st = fst (handleMouseMove (fst m) (snd m) (moves ms st)).
Proof. unfold moves. now rewrite fold_left_app. Qed.

Lemma moves_dragging ms : forall st a,
  isSelecting st = true -> startPos st = Some a ->
  isSelecting (moves ms st) = true /\ startPos (moves ms st) = Some a.
Proof.
  induction ms as [|m ms IH]; intros st a Hsel Hstart; [easy|].
  change (moves (m :: ms) st)
    with (moves ms (fst (handleMouseMove (fst m) (snd m) st))).
  rewrite (handleMouseMove_dragging _ _ _ a Hsel Hstart). now apply IH.
Qed.



Lemma drag_ends_spanned pageNum down ms last st :
  selectionBox (drag pageNum down (ms ++ [last]) st)
    = Some (spanned (getCanvasCoordinates (fst down) (snd down))
                    (getCanvasCoordinates (fst last) (snd last))).
Proof.
  unfold drag. rewrite moves_snoc.
  destruct (moves_dragging ms (fst (handleMouseDown pageNum (fst down) (snd down) st))
              (getCanvasCoordinates (fst down) (snd down)) eq_refl eq_refl) as [H1 H2].
  now rewrite (handleMouseMove_dragging _ _ _ _ H1 H2).
Qed.

(** C1.  Pointer-down at [a] starts a box of size zero at [a].  A drag
    that goes down at [a] and whose last move is at [b] leaves
    the box with corner [(min ax bx, min ay by)] and extents
    [|bx - ax|], [|by - ay|]: width and height are never negative, and the
    drag from [b] to [a] leaves the very same box, whatever moves came in
    between and whatever state the page was in. *)
Theorem drag_box_normalized :
  forall pageNum pageNum' st st' c0 e0 c1 e1 ms ms',
    let a := getCanvasCoordinates c0 e0 in
    let b := getCanvasCoordinates c1 e1 in
    selectionBox (drag pageNum (c0, e0) [] st)
      = Some {| x := px a; y := py a; width := 0; height := 0 |} /\
    exists box,
      selectionBox (drag pageNum (c0, e0) (ms ++ [(c1, e1)]) st) = Some box /\
      0 <= width box /\ 0 <= height box /\
      x box = Z.min (px a) (px b) /\ y box = Z.min (py a) (py b) /\
      width box = Z.abs (px b - px a) /\ height box = Z.abs (py b - py a) /\
      selectionBox (drag pageNum' (c1, e1) (ms' ++ [(c0, e0)]) st') = Some box.
Proof.
  intros. split; [reflexivity|].
  exists (spanned a b). rewrite !drag_ends_spanned. simpl fst; simpl snd.
  fold a b. rewrite (spanned_sym b a). unfold spanned; simpl.
  repeat split; auto using Z.abs_nonneg.
Qed.

Lemma tooSmall_test box :
  (width box <? 10) || (height box <? 10) = true <-> tooSmall box.
Proof.
  unfold tooSmall. rewrite orb_true_iff, !Z.ltb_lt. tauto.
Qed.

Lemma handleMouseUp_dragging pageNum rect snapshot st box :
  isSelecting st = true -> selectionBox st = Some box ->
  handleMouseUp pageNum (Some rect) snapshot st =
    if (width box <? 10) || (height box <? 10) then
      ({| selectionBox := None; isSelecting := false; startPos := None |}, [])
    else
      ({| selectionBox := Some box; isSelecting := false; startPos := None |},
       match snapshot with
       | Some image => [SelectionComplete {| pageNumber := pageNum; rect := box;
                                             imageBase64 := image |}]
       | None => []
       end).
Proof.
  intros Hsel Hbox. unfold handleMouseUp. rewrite Hsel, Hbox.
  destruct ((width box <? 10) || (height box <? 10)); [reflexivity|].
  now destruct snapshot.
Qed.

Lemma handleMouseUp_idle pageNum canvas snapshot st :
  isSelecting st = false -> snd (handleMouseUp pageNum canvas snapshot st) = [].
Proof. intros Hsel. unfold handleMouseUp. now rewrite Hsel. Qed.

End PageSelection.

(** * The insight list *)

Section InsightList.
Import App.

(** Either way the continuation of [handleAction] returns, with one
    update. *)
Lemma handleAction_resume_one newId outcome :
  handleAction_resume newId outcome = Normal [Settle newId (shown outcome)].
Proof. now destruct outcome. Qed.

Lemma insights_setViewer v s : insights (setViewer v s) = insights s.
Proof. reflexivity. Qed.

Lemma insights_selections datas : forall s,
  insights (fold_left (fun s d => handleSelectionComplete d s) datas s) = insights s.
Proof. induction datas as [|d datas IH]; intros s; [reflexivity|]. simpl. now rewrite IH. Qed.

Lemma insights_pointer n handler s : insights (pointer n handler s) = insights s.
Proof.
  unfold pointer. destruct (PaperViewer.onPage n handler (viewer s)) as [v datas].
  now rewrite insights_selections.
Qed.

Lemma insights_settled newId outcome s :
  insights (step (RequestSettled newId outcome) s)
    = apply (Settle newId (shown outcome)) (insights s).
Proof. simpl. now rewrite handleAction_resume_one. Qed.

Lemma finished_id i text : id (finished i text) = id i.
Proof. reflexivity. Qed.

Lemma ids_settle target text l :
  id <$> apply (Settle target text) l = id <$> l.
Proof.
  simpl. rewrite <- list_fmap_compose. apply list_fmap_ext.
  intros k i _. simpl. now destruct (String.eqb (id i) target).
Qed.

Lemma lookup_settle target text l k :
  apply (Settle target text) l !! k
    = (fun i => if String.eqb (id i) target then finished i text else i) <$> (l !! k).
Proof. simpl. apply list_lookup_fmap. Qed.

Lemma lookup_settle_other target text l k r :
  l !! k = Some r -> id r <> target -> apply (Settle target text) l !! k = Some r.
Proof.
  intros Hk Hne. rewrite lookup_settle, Hk. simpl.
  apply String.eqb_neq in Hne. now rewrite Hne.
Qed.

Lemma lookup_settle_own target text l k r :
  l !! k = Some r -> id r = target ->
  apply (Settle target text) l !! k = Some (finished r text).
Proof.
  intros Hk Heq. rewrite lookup_settle, Hk. simpl.
  apply String.eqb_eq in Heq. now rewrite Heq.
Qed.

Lemma settle_absent target text l :
  (forall r, r ∈ l -> id r <> target) -> apply (Settle target text) l = l.
Proof.
  intros Habs. simpl. rewrite <- (list_fmap_id l) at 2. apply list_fmap_ext.
  intros k r Hk. assert (id r <> target) as Hne
    by (apply Habs; eapply list_elem_of_lookup_2; eauto).
  apply String.eqb_neq in Hne. now rewrite Hne.
Qed.

Lemma settle_commute t1 c1 t2 c2 l :
  t1 <> t2 ->
  apply (Settle t2 c2) (apply (Settle t1 c1) l)
    = apply (Settle t1 c1) (apply (Settle t2 c2) l).
Proof.
  intros Hne. simpl. rewrite <- !list_fmap_compose. apply list_fmap_ext.
  intros k i _. simpl.
  destruct (String.eqb (id i) t1) eqn:H1, (String.eqb (id i) t2) eqn:H2;
    simpl; rewrite ?H1, ?H2; try reflexivity.
  apply String.eqb_eq in H1, H2. congruence.
Qed.

Lemma filter_drops target l r :
  r ∈ apply (Filter target) l -> id r <> target.
Proof.
  simpl. rewrite list_elem_of_filter. intros [Hne _] Heq.
  apply String.eqb_eq in Heq. now rewrite Heq in Hne.
Qed.

Lemma ids_filter_sublist target l :
  (id <$> apply (Filter target) l) `sublist_of` (id <$> l).
Proof. simpl. apply fmap_sublist, sublist_filter. Qed.

(** Which identifiers a step can leave in the list. *)
Lemma ids_step ev s :
  (exists type nowId nowTs sel,
      ev = ActionClicked type nowId nowTs /\ currentSelection s = Some sel /\
      ids (step ev s) = ids s ++ [pretty nowId])
  \/ ((forall type nowId nowTs, ev = ActionClicked type nowId nowTs ->
         currentSelection s = None)
      /\ ids (step ev s) `sublist_of` ids s).
Proof.
  unfold ids.
  event_cases ev;
    simpl step; try (right; split; [discriminate|]).
  - unfold handleFileUpload. destruct files as [[|f fs]|]; simpl; try reflexivity.
    apply sublist_nil_l.
  - reflexivity.
  - now rewrite insights_pointer.
  - now rewrite insights_pointer.
  - now rewrite insights_pointer.
  - now rewrite insights_pointer.
  - unfold handleAction_begin. destruct (currentSelection s) as [sel|] eqn:Hsel.
    + left. exists ty, nowId, nowTs, sel. repeat split; trivial.
      simpl. now rewrite fmap_app.
    + right. split; [intros; reflexivity | reflexivity].
  - rewrite handleAction_resume_one. simpl issued.
    unfold setInsights; simpl insights. simpl fold_left.
    change ((λ i : InsightResult,
               if (id i =? newId)%string then finished i (shown outcome) else i)
              <$> insights s) with (apply (Settle newId (shown outcome)) (insights s)).
    now rewrite ids_settle.
  - apply ids_filter_sublist.
  - reflexivity.
Qed.

Lemma run_keeps_ids_distinct trace : forall s seen,
  NoDup (seen ++ idClocks trace s) ->
  (forall i, i ∈ ids s -> exists n, n ∈ seen /\ i = pretty n) ->
  NoDup (ids s) ->
  NoDup (ids (run trace s)).
Proof.
  induction trace as [|ev trace IH]; intros s seen Hclock Hseen Hnd; [exact Hnd|].
  change (run (ev :: trace) s) with (run trace (step ev s)).
  destruct (ids_step ev s) as [(ty & nowId & nowTs & sel & -> & Hsel & Hids) | [Hnone Hsub]].
  - simpl idClocks in Hclock. rewrite Hsel in Hclock.
    apply (IH _ (seen ++ [nowId])).
    + now rewrite <- app_assoc.
    + intros i. rewrite Hids, !elem_of_app, list_elem_of_singleton.
      intros [Hi | ->].
      * destruct (Hseen i Hi) as (n & Hn & ->). exists n. rewrite elem_of_app. tauto.
      * exists nowId. rewrite elem_of_app, list_elem_of_singleton. tauto.
    + rewrite Hids. apply NoDup_app. split; [exact Hnd|]. split; [|apply NoDup_singleton].
      intros i Hi. rewrite list_elem_of_singleton. intros ->.
      destruct (Hseen _ Hi) as (n & Hn & Heq). apply (inj pretty) in Heq. subst n.
      apply NoDup_app in Hclock as (_ & Hfresh & _).
      apply (Hfresh _ Hn). left.
  - apply (IH _ seen).
    + assert (idClocks (ev :: trace) s = idClocks trace (step ev s)) as <-; [|exact Hclock].
      simpl idClocks. destruct ev; try reflexivity.
      now rewrite (Hnone _ _ _ eq_refl).
    + intros i Hi. apply Hseen. eapply elem_of_sublist; eauto.
    + eapply sublist_NoDup; eauto.
Qed.

End InsightList.

(** * Identifiers, completions and removals *)

Section Requests.
Import App.

(** C2 as the code has it.  Along every trace in which the [Date.now()]
    readings that became identifiers are pairwise distinct, the entries of
    the insight list carry pairwise distinct ids; and two creations with
    different readings get different ids. *)
Theorem ids_distinct_for_distinct_clock_readings :
  forall trace,
    NoDup (idClocks trace initial) ->
    NoDup (ids (run trace initial)) /\
    (forall j k rj rk,
        insights (run trace initial) !! j = Some rj ->
        insights (run trace initial) !! k = Some rk ->
        j <> k -> id rj <> id rk) /\
    (forall ty1 ty2 n1 n2 ts1 ts2,
        n1 <> n2 -> id (newInsight ty1 n1 ts1) <> id (newInsight ty2 n2 ts2)).
Proof.
  intros trace Hclock.
  assert (NoDup (ids (run trace initial))) as Hnd.
  { apply (run_keeps_ids_distinct trace initial []); [exact Hclock| |constructor].
    intros i Hi. inversion Hi. }
  split; [exact Hnd|]. split.
  - intros j k rj rk Hj Hk Hjk Heq. apply Hjk.
    eapply (NoDup_lookup _ j k (id rj) Hnd); unfold ids; rewrite list_lookup_fmap.
    + now rewrite Hj.
    + rewrite Hk. simpl. now rewrite Heq.
  - intros ty1 ty2 n1 n2 ts1 ts2 Hne Heq. apply Hne. simpl in Heq.
    now apply (inj pretty) in Heq.
Qed.

Lemma ids_distinct_for_distinct_clock_readings_witness :
  NoDup (idClocks twoActions initial) /\
  NoDup (ids (run twoActions initial)).
Proof.
  assert (NoDup (idClocks twoActions initial)) as H.
  { apply (bool_decide_unpack _). vm_compute. exact I. }
  split; [exact H|].
  exact (proj1 (ids_distinct_for_distinct_clock_readings twoActions H)).
Defined.

(** C2 as the claim words it fails: two actions taken within one
    millisecond leave two entries with the same id. *)
Lemma same_millisecond_same_id :
  ~ (forall trace, NoDup (ids (run trace initial))).
Proof.
  intros H. specialize (H twoActionsSameMillisecond).
  vm_compute in H. apply NoDup_cons in H as [Hin _]. apply Hin. left.
Qed.

(** C3 as the code has it.  For two entries of the list whose ids differ,
    the two completion updates commute; after both, each entry is finished
    with the text of its own request's outcome; and neither update touches
    the other entry. *)
Theorem completions_commute_for_distinct_ids :
  forall s k1 k2 r1 r2 o1 o2,
    insights s !! k1 = Some r1 ->
    insights s !! k2 = Some r2 ->
    id r1 <> id r2 ->
    let s1 := step (RequestSettled (id r1) o1) s in
    let s2 := step (RequestSettled (id r2) o2) s in
    let s12 := step (RequestSettled (id r2) o2) s1 in
    let s21 := step (RequestSettled (id r1) o1) s2 in
    s12 = s21 /\
    insights s12 !! k1 = Some (finished r1 (shown o1)) /\
    insights s12 !! k2 = Some (finished r2 (shown o2)) /\
    insights s1 !! k2 = Some r2 /\
    insights s2 !! k1 = Some r1.
Proof.
  intros s k1 k2 r1 r2 o1 o2 H1 H2 Hne s1 s2 s12 s21.
  assert (insights s12 = insights s21) as Hcomm.
  { subst s12 s21 s1 s2. rewrite !insights_settled. now apply settle_commute. }
  split.
  { subst s12 s21 s1 s2. simpl step in *. rewrite !handleAction_resume_one in *.
    unfold setInsights in *. simpl in *. now f_equal. }
  subst s12 s1 s2. rewrite !insights_settled. repeat split.
  - apply lookup_settle_other; [|rewrite finished_id; exact Hne].
    now apply lookup_settle_own.
  - apply lookup_settle_own; [|reflexivity].
    apply lookup_settle_other; [exact H2 | congruence].
  - apply lookup_settle_other; [exact H2 | congruence].
  - now apply lookup_settle_other.
Qed.

Lemma completions_commute_for_distinct_ids_witness :
  let s := run twoActions initial in
  let s12 := step (RequestSettled "1700000000001" (Throw (ErrorObject "quota")))
               (step (RequestSettled "1700000000000" (Normal "An explanation.")) s) in
  let s21 := step (RequestSettled "1700000000000" (Normal "An explanation."))
               (step (RequestSettled "1700000000001" (Throw (ErrorObject "quota"))) s) in
  s12 = s21 /\
  content <$> insights s12 = ["An explanation."; "Error processing request."].
Proof.
  intros s s12 s21.
  pose proof (completions_commute_for_distinct_ids s 0%nat 1%nat
                (newInsight EXPLAIN 1700000000000 1700000000000)
                (newInsight CODE 1700000000001 1700000000001)
                (Normal "An explanation.") (Throw (ErrorObject "quota"))
                eq_refl eq_refl) as H.
  split.
  - apply H. vm_compute. discriminate.
  - vm_compute. reflexivity.
Defined.

(** C3 as the claim words it fails: the two entries created within one
    millisecond share their id, each completion rewrites both, and the
    order of the completions decides what both show. *)
Lemma completions_of_equal_ids_do_not_commute :
  ~ (forall s k1 k2 r1 r2 o1 o2,
       insights s !! k1 = Some r1 ->
       insights s !! k2 = Some r2 ->
       k1 <> k2 -> isLoading r1 = true -> isLoading r2 = true ->
       let s12 := step (RequestSettled (id r2) o2) (step (RequestSettled (id r1) o1) s) in
       let s21 := step (RequestSettled (id r1) o1) (step (RequestSettled (id r2) o2) s) in
       insights s12 = insights s21 /\
       (content <$> insights s12 !! k1) = Some (shown o1) /\
       (content <$> insights s12 !! k2) = Some (shown o2)).
Proof.
  intros H.
  specialize (H (run twoActionsSameMillisecond initial) 0%nat 1%nat
                (newInsight EXPLAIN 1700000000000 1700000000000)
                (newInsight CODE 1700000000000 1700000000000)
                (Normal "first") (Normal "second")
                eq_refl eq_refl ltac:(discriminate) eq_refl eq_refl).
  destruct H as [H _]. vm_compute in H. discriminate H.
Qed.

End Requests.

(** * Lifecycle of one insight *)

Section Lifecycle.
Import App.

Lemma loading_entries_step ev s r :
  r ∈ insights (step ev s) -> isLoading r = true ->
  r ∈ insights s \/
  exists ty nowId nowTs, ev = ActionClicked ty nowId nowTs /\ r = newInsight ty nowId nowTs.
Proof.
  event_cases ev;
    simpl step; rewrite ?insights_pointer; intros Hin Hload; try (now left).
  - unfold handleFileUpload in Hin.
    destruct files as [[|f fs]|]; simpl in Hin; first [now left | inversion Hin].
  - unfold handleAction_begin in Hin. destruct (currentSelection s); simpl in Hin.
    + apply elem_of_app in Hin as [Hin | Hin]; [now left|].
      apply list_elem_of_singleton in Hin. right. now exists ty, nowId, nowTs.
    + now left.
  - rewrite handleAction_resume_one in Hin. simpl in Hin.
    apply list_elem_of_fmap in Hin as (i & -> & Hi).
    destruct (String.eqb (id i) newId); [discriminate Hload | now left].
  - simpl in Hin. apply list_elem_of_filter in Hin as [_ Hin]. now left.
Qed.

Lemma settled_entries target text l r :
  r ∈ apply (Settle target text) l -> id r = target ->
  isLoading r = false /\ content r = text.
Proof.
  simpl. intros (i & -> & Hi)%list_elem_of_fmap Hid.
  destruct (String.eqb (id i) target) eqn:Heq; [now split|].
  apply String.eqb_neq in Heq. contradiction.
Qed.

(** What one invocation does on its own.  An action taken on a committed
    selection appends one entry that is
    loading with empty content and sends one request.  However the request
    settles, the continuation returns with exactly one update for that id,
    carrying the result when the call returned and the fixed error string
    when it threw; applied to any later list, the update finishes the entry
    where it stands, leaves no entry with that id loading and no entry with
    another id changed.  No step ever makes an entry loading other than by
    creating it. *)
Theorem action_lifecycle :
  forall s sel ty nowId nowTs,
    currentSelection s = Some sel ->
    let created := newInsight ty nowId nowTs in
    isLoading created = true /\ content created = EmptyString /\
    insights (step (ActionClicked ty nowId nowTs) s) = insights s ++ [created] /\
    snd (handleAction_begin ty nowId nowTs s) = Some (imageBase64 sel, ty) /\
    (forall outcome,
        exists text,
          handleAction_resume (id created) outcome = Normal [Settle (id created) text] /\
          (forall result, outcome = Normal result -> text = result) /\
          (forall error, outcome = Throw error -> text = "Error processing request.") /\
          forall later,
            let after := step (RequestSettled (id created) outcome) later in
            (forall k r, insights later !! k = Some r -> id r = id created ->
                         insights after !! k = Some (finished r text)) /\
            (forall r, r ∈ insights after -> id r = id created ->
                       isLoading r = false /\ content r = text) /\
            (forall k r, insights later !! k = Some r -> id r <> id created ->
                         insights after !! k = Some r)) /\
    (forall ev s0 r,
        r ∈ insights (step ev s0) -> isLoading r = true ->
        r ∈ insights s0 \/
        exists ty' n ts, ev = ActionClicked ty' n ts /\ r = newInsight ty' n ts).
Proof.
  intros s sel ty nowId nowTs Hsel created.
  split; [reflexivity|]. split; [reflexivity|]. split.
  { simpl. unfold handleAction_begin. now rewrite Hsel. }
  split.
  { unfold handleAction_begin. now rewrite Hsel. }
  split.
  - intros outcome. exists (shown outcome).
    split; [apply handleAction_resume_one|].
    split; [now intros result ->|]. split; [now intros error ->|].
    intros later after. subst after. rewrite insights_settled. split.
    + intros k r Hk Hid. now apply lookup_settle_own.
    + split.
      * intros r Hr Hid. now apply (settled_entries _ _ _ _ Hr).
      * intros k r Hk Hid. now apply lookup_settle_other.
  - apply loading_entries_step.
Qed.

Lemma action_lifecycle_witness :
  let s := run selectOnPage1 initial in
  insights (step (ActionClicked SLIDE 1700000000000 1700000000002) s)
    = [newInsight SLIDE 1700000000000 1700000000002] /\
  handleAction_resume "1700000000000" (Throw (OtherValue "offline"))
    = Normal [Settle "1700000000000" "Error processing request."].
Proof.
  intros s.
  destruct (action_lifecycle s
              {| pageNumber := 1;
                 rect := {| x := 10; y := 10; width := 50; height := 50 |};
                 imageBase64 := "data:image/png;base64,iVBORw0KGgo=" |}
              SLIDE 1700000000000 1700000000002 eq_refl)
    as (_ & _ & Happend & _ & Hsettle & _).
  split; [exact Happend|].
  destruct (Hsettle (Throw (OtherValue "offline"))) as (text & Hone & _ & Hthrow & _).
  rewrite (Hthrow _ eq_refl) in Hone. exact Hone.
Defined.

(** C5.  A completion for an id that no entry of the list carries returns
    without throwing and leaves the whole state as it was: nothing is
    changed, nothing with that id is put back. *)
Theorem completion_for_absent_id_is_dropped :
  forall s target outcome,
    (forall r, r ∈ insights s -> id r <> target) ->
    settled_ok (handleAction_resume target outcome) = true /\
    step (RequestSettled target outcome) s = s /\
    insights (step (RequestSettled target outcome) s) = insights s /\
    (forall r, r ∈ insights (step (RequestSettled target outcome) s) -> id r <> target).
Proof.
  intros s target outcome Habs.
  assert (insights (step (RequestSettled target outcome) s) = insights s) as Hsame.
  { rewrite insights_settled. now apply settle_absent. }
  split; [now rewrite handleAction_resume_one|]. split.
  - destruct s as [f l sel v]. simpl in *. rewrite handleAction_resume_one in *.
    unfold setInsights in *. simpl in *. now f_equal.
  - split; [exact Hsame|]. rewrite Hsame. exact Habs.
Qed.

(** Closing an entry leaves no entry with its id, so a completion that
    arrives afterwards falls under the theorem above; so does a completion
    that arrives after a new file emptied the list. *)
Lemma closed_id_is_absent s target r :
  r ∈ insights (step (CloseClicked target) s) -> id r <> target.
Proof. simpl. apply filter_drops. Qed.

Lemma uploaded_list_is_empty f fs s :
  insights (step (FileChosen (Some (f :: fs))) s) = [].
Proof. reflexivity. Qed.

Lemma completion_for_absent_id_is_dropped_witness :
  let s := step (CloseClicked "1700000000000") (run twoActions initial) in
  let late := RequestSettled "1700000000000" (Normal "An explanation.") in
  step late s = s /\
  id <$> insights (step late s) = ["1700000000001"].
Proof.
  intros s late.
  destruct (completion_for_absent_id_is_dropped s "1700000000000"
              (Normal "An explanation.")) as (_ & Hsame & Hlist & _).
  - intros r Hr. vm_compute in Hr. apply list_elem_of_singleton in Hr. subst r.
    vm_compute. discriminate.
  - split; [exact Hsame|]. subst late. rewrite Hlist. vm_compute. reflexivity.
Defined.

End Lifecycle.

(** * One selection overlay at a time *)

Section Overlay.
Import PaperViewer App.

Lemma move_reports canvas e st : snd (PDFPage.handleMouseMove canvas e st) = [].
Proof.
  unfold PDFPage.handleMouseMove.
  destruct (PDFPage.isSelecting st); simpl; [|reflexivity].
  now destruct (PDFPage.startPos st).
Qed.

Lemma move_selecting canvas e st :
  PDFPage.isSelecting (fst (PDFPage.handleMouseMove canvas e st)) = PDFPage.isSelecting st.
Proof.
  unfold PDFPage.handleMouseMove.
  destruct (PDFPage.isSelecting st) eqn:Hsel; simpl; [|exact Hsel].
  destruct (PDFPage.startPos st); simpl; [reflexivity | exact Hsel].
Qed.

Lemma move_box canvas e st box :
  PDFPage.selectionBox (fst (PDFPage.handleMouseMove canvas e st)) = Some box ->
  PDFPage.selectionBox st = Some box \/ PDFPage.isSelecting st = true.
Proof.
  unfold PDFPage.handleMouseMove.
  destruct (PDFPage.isSelecting st); simpl; [now right | now left].
Qed.

Lemma up_selecting pageNum canvas snapshot st :
  PDFPage.isSelecting (fst (PDFPage.handleMouseUp pageNum canvas snapshot st)) = false.
Proof.
  unfold PDFPage.handleMouseUp.
  destruct (PDFPage.isSelecting st), (PDFPage.selectionBox st) as [box|], canvas;
    try reflexivity.
  destruct ((width box <? 10) || (height box <? 10)); [reflexivity|].
  now destruct snapshot.
Qed.

Lemma up_box pageNum canvas snapshot st box :
  PDFPage.selectionBox (fst (PDFPage.handleMouseUp pageNum canvas snapshot st)) = Some box ->
  PDFPage.selectionBox st = Some box.
Proof.
  unfold PDFPage.handleMouseUp.
  destruct (PDFPage.isSelecting st), (PDFPage.selectionBox st) as [box'|], canvas;
    simpl; trivial.
  destruct ((width box' <? 10) || (height box' <? 10)); [discriminate|].
  now destruct snapshot.
Qed.

Lemma up_reports pageNum canvas snapshot st r :
  r ∈ snd (PDFPage.handleMouseUp pageNum canvas snapshot st) ->
  exists data, r = PDFPage.SelectionComplete data.
Proof.
  unfold PDFPage.handleMouseUp.
  destruct (PDFPage.isSelecting st), (PDFPage.selectionBox st) as [box|], canvas;
    simpl; try (intros H; now inversion H).
  destruct ((width box <? 10) || (height box <? 10)); [intros H; now inversion H|].
  destruct snapshot; simpl; [|intros H; now inversion H].
  intros H%list_elem_of_singleton. eauto.
Qed.

Lemma quiet_reports reports : forall v,
  (forall r, r ∈ reports -> exists data, r = PDFPage.SelectionComplete data) ->
  fold_left report reports v = v.
Proof.
  induction reports as [|r reports IH]; intros v Hq; [reflexivity|]. simpl.
  destruct (Hq r) as [data ->]; [left|]. simpl. apply IH.
  intros r' Hr'. apply Hq. now right.
Qed.

Lemma flushEffects_same v : flushEffects (activeSelectionPage v) v = v.
Proof.
  unfold flushEffects. destruct (activeSelectionPage v) as [a|]; [|reflexivity].
  now rewrite bool_decide_eq_true_2.
Qed.

(** A handler that starts no selection only replaces its page's state. *)
Lemma onPage_quiet n handler v st :
  pages v !! n = Some st ->
  (forall r, r ∈ snd (handler st) -> exists data, r = PDFPage.SelectionComplete data) ->
  fst (onPage n handler v)
    = {| pdfDoc := pdfDoc v; activeSelectionPage := activeSelectionPage v;
         pages := <[n := fst (handler st)]> (pages v) |}.
Proof.
  intros Hn Hq. unfold onPage. rewrite Hn.
  destruct (handler st) as [st' reports]. simpl in *.
  rewrite quiet_reports by exact Hq.
  exact (flushEffects_same
           {| pdfDoc := pdfDoc v; activeSelectionPage := activeSelectionPage v;
              pages := <[n := st']> (pages v) |}).
Qed.

Lemma onPage_unmounted n handler v :
  pages v !! n = None -> onPage n handler v = (v, []).
Proof. intros Hn. unfold onPage. now rewrite Hn. Qed.

(** Pointer-down makes its page the active one and clears the page that
    was active before. *)
Lemma onPage_down n canvas e v st :
  pages v !! n = Some st ->
  let st' := fst (PDFPage.handleMouseDown n canvas e st) in
  fst (onPage n (PDFPage.handleMouseDown n canvas e) v)
    = {| pdfDoc := pdfDoc v;
         activeSelectionPage := Some n;
         pages :=
           match activeSelectionPage v with
           | Some a =>
               if bool_decide (a = n) then <[n := st']> (pages v)
               else alter PDFPage.clearSelection a (<[n := st']> (pages v))
           | None => <[n := st']> (pages v)
           end |}.
Proof.
  intros Hn st'. unfold onPage. rewrite Hn. simpl.
  unfold flushEffects, handleSelectionStart. simpl.
  destruct (activeSelectionPage v) as [a|]; [|reflexivity].
  destruct (decide (a = n)) as [->|Hne].
  - now rewrite !bool_decide_eq_true_2.
  - rewrite !bool_decide_eq_false_2; [reflexivity | exact Hne | congruence].
Qed.

Lemma viewer_selections datas : forall s,
  viewer (fold_left (fun s d => handleSelectionComplete d s) datas s) = viewer s.
Proof. induction datas as [|d datas IH]; intros s; [reflexivity|]. simpl. now rewrite IH. Qed.

Lemma viewer_pointer n handler s :
  viewer (pointer n handler s) = fst (onPage n handler (viewer s)).
Proof.
  unfold pointer. destruct (onPage n handler (viewer s)) as [v datas].
  now rewrite viewer_selections.
Qed.

(** A page rendered for a document either kept its state or is fresh. *)
Lemma mount_lookup doc old p st :
  mount (Some doc) old !! p = Some st ->
  old !! p = Some st \/ st = PDFPage.initial.
Proof.
  unfold mount. intros H%elem_of_list_to_map_2.
  apply list_elem_of_fmap in H as (k & Heq & _). inversion Heq; subst k.
  destruct (old !! p); simpl; auto.
Qed.

Lemma free_test over n :
  match over with None => true | Some m => Nat.eqb m n end = true -> free over n.
Proof.
  destruct over as [m|]; [|now left]. intros H%Nat.eqb_eq. right. congruence.
Qed.

Lemma overlayInvariant_initial : overlayInvariant None PaperViewer.initial.
Proof. split; intros p st; simpl; rewrite lookup_empty; discriminate. Qed.

Lemma overlayInvariant_quiet over over' n handler v :
  free over n ->
  (over' = Some n \/ forall st, PDFPage.isSelecting (fst (handler st)) = false) ->
  (forall st r, r ∈ snd (handler st) -> exists data, r = PDFPage.SelectionComplete data) ->
  (forall st, PDFPage.isSelecting (fst (handler st)) = true -> PDFPage.isSelecting st = true) ->
  (forall st box, PDFPage.selectionBox (fst (handler st)) = Some box ->
                  PDFPage.selectionBox st = Some box \/ PDFPage.isSelecting st = true) ->
  overlayInvariant over v ->
  overlayInvariant over' (fst (onPage n handler v)).
Proof.
  intros Hfree Hover Hquiet Hsel Hbox [Inv1 Inv2].
  destruct (pages v !! n) as [st|] eqn:Hn.
  - rewrite (onPage_quiet n handler v st Hn (Hquiet st)). split; simpl.
    + intros p st' box. destruct (decide (n = p)) as [<-|Hne].
      * rewrite lookup_insert_eq. intros [= <-] Hb.
        destruct (Hbox st box Hb) as [Hold | Hdrag].
        -- eapply Inv1; eauto.
        -- now apply (Inv2 n st Hn).
      * rewrite lookup_insert_ne by exact Hne. apply Inv1.
    + intros p st'. destruct (decide (n = p)) as [<-|Hne].
      * rewrite lookup_insert_eq. intros [= <-] Hs.
        destruct Hover as [-> | Hidle]; [|now rewrite Hidle in Hs].
        split; [reflexivity|]. now apply (Inv2 n st Hn), Hsel.
      * rewrite lookup_insert_ne by exact Hne. intros Hp Hs.
        destruct (Inv2 p st' Hp Hs) as [Hov _].
        destruct Hfree as [Hf | Hf]; congruence.
  - rewrite onPage_unmounted by exact Hn. simpl. split; [exact Inv1|].
    intros p st Hp Hs. destruct (Inv2 p st Hp Hs) as [Hov Hact].
    destruct Hfree as [Hf | Hf]; congruence.
Qed.

Lemma overlayInvariant_down over n canvas e v :
  free over n ->
  overlayInvariant over v ->
  overlayInvariant (Some n) (fst (onPage n (PDFPage.handleMouseDown n canvas e) v)).
Proof.
  intros Hfree [Inv1 Inv2].
  assert (forall p st, pages v !! p = Some st -> PDFPage.isSelecting st = true -> p = n)
    as Honly.
  { intros p st Hp Hs. destruct (Inv2 p st Hp Hs) as [Hov _].
    destruct Hfree as [Hf | Hf]; congruence. }
  destruct (pages v !! n) as [st|] eqn:Hn.
  - rewrite (onPage_down n canvas e v st Hn).
    assert (forall p st',
               match activeSelectionPage v with
               | Some a =>
                   if bool_decide (a = n)
                   then <[n := fst (PDFPage.handleMouseDown n canvas e st)]> (pages v)
                   else alter PDFPage.clearSelection a
                          (<[n := fst (PDFPage.handleMouseDown n canvas e st)]> (pages v))
               | None => <[n := fst (PDFPage.handleMouseDown n canvas e st)]> (pages v)
               end !! p = Some st' ->
               p <> n ->
               PDFPage.selectionBox st' = None /\
               exists st0, pages v !! p = Some st0 /\
                           PDFPage.isSelecting st' = PDFPage.isSelecting st0) as Hother.
    { intros p st' Hp Hne.
      assert (forall st0, pages v !! p = Some st0 ->
                          activeSelectionPage v <> Some p ->
                          PDFPage.selectionBox st0 = None) as Hclear.
      { intros st0 H0 Hact. destruct (PDFPage.selectionBox st0) as [box|] eqn:Hb; [|reflexivity].
        exfalso. apply Hact. eapply Inv1; eauto. }
      destruct (activeSelectionPage v) as [a|] eqn:Hact.
      - destruct (bool_decide (a = n)) eqn:Han.
        + apply bool_decide_eq_true_1 in Han. subst a.
          rewrite lookup_insert_ne in Hp by congruence.
          split; [apply Hclear; [exact Hp | congruence] | eauto].
        + rewrite lookup_alter in Hp. destruct (decide (a = p)) as [->|Hap].
          * rewrite lookup_insert_ne in Hp by congruence.
            destruct (pages v !! p) as [st0|] eqn:H0; simpl in Hp; [|discriminate].
            injection Hp as <-. split; [reflexivity | eauto].
          * rewrite lookup_insert_ne in Hp by congruence.
            split; [apply Hclear; [exact Hp | congruence] | eauto].
      - rewrite lookup_insert_ne in Hp by congruence.
        split; [apply Hclear; [exact Hp | discriminate] | eauto]. }
    split; simpl.
    + intros p st' box Hp Hb. destruct (decide (p = n)) as [->|Hne]; [reflexivity|].
      destruct (Hother p st' Hp Hne) as [Hnone _]. congruence.
    + intros p st' Hp Hs. destruct (decide (p = n)) as [->|Hne]; [now split|].
      destruct (Hother p st' Hp Hne) as (_ & st0 & H0 & Heq).
      rewrite Heq in Hs. now destruct (Hne (Honly p st0 H0 Hs)).
  - rewrite onPage_unmounted by exact Hn. simpl. split; [exact Inv1|].
    intros p st Hp Hs. pose proof (Honly p st Hp Hs). subst p. congruence.
Qed.

Lemma overlayInvariant_parsed over parsed v :
  overlayInvariant over v ->
  overlayInvariant over (landed (onload parsed v) v).
Proof.
  intros [Inv1 Inv2]. destruct parsed as [doc|error]; simpl; [|now split].
  split; simpl.
  - intros p st box Hp Hb. apply mount_lookup in Hp as [Hp | ->]; [|discriminate].
    eapply Inv1; eauto.
  - intros p st Hp Hs. apply mount_lookup in Hp as [Hp | ->]; [|discriminate].
    eapply Inv2; eauto.
Qed.

Lemma singlePointer_cons over ev trace :
  singlePointer over (ev :: trace) = true ->
  singlePointer (pointerAfter ev over) trace = true /\
  forall n, (exists c e, ev = MouseDown n c e \/ ev = MouseMove n c e) \/
            (exists c sn, ev = MouseUp n c sn \/ ev = MouseLeave n c sn) ->
            free over n.
Proof.
  destruct ev; simpl; try (intros H; split; [exact H|];
    intros n [(c' & e' & [?|?]) | (c' & sn' & [?|?])]; discriminate).
  all: intros [Hfree Hrest]%andb_prop; split; [exact Hrest|];
    intros n [(c' & e' & [[=]|[=]]) | (c' & sn' & [[=]|[=]])]; subst;
    now apply free_test.
Qed.

Lemma overlayInvariant_step over ev trace s :
  singlePointer over (ev :: trace) = true ->
  overlayInvariant over (viewer s) ->
  overlayInvariant (pointerAfter ev over) (viewer (step ev s)).
Proof.
  intros [_ Hfree]%singlePointer_cons Inv.
  event_cases ev;
    simpl step; simpl pointerAfter; rewrite ?viewer_pointer.
  - unfold handleFileUpload. now destruct files as [[|f fs]|].
  - now apply overlayInvariant_parsed.
  - apply (overlayInvariant_down over); [apply Hfree; eauto 6 | exact Inv].
  - apply (overlayInvariant_quiet over); trivial.
    + apply Hfree; eauto 6.
    + now left.
    + intros st r. rewrite move_reports. intros H. inversion H.
    + intros st. now rewrite move_selecting.
    + intros st box. apply move_box.
  - apply (overlayInvariant_quiet over); trivial.
    + apply Hfree; eauto 6.
    + now left.
    + intros st r. apply up_reports.
    + intros st. now rewrite up_selecting.
    + intros st box Hb. left. eapply up_box; eauto.
  - apply (overlayInvariant_quiet over); trivial.
    + apply Hfree; eauto 6.
    + right. intros st. apply up_selecting.
    + intros st r. apply up_reports.
    + intros st. now rewrite up_selecting.
    + intros st box Hb. left. eapply up_box; eauto.
  - exact Inv.
  - exact Inv.
  - exact Inv.
  - exact Inv.
Qed.

Lemma overlayInvariant_run trace : forall over s,
  singlePointer over trace = true ->
  overlayInvariant over (viewer s) ->
  exists over', overlayInvariant over' (viewer (run trace s)).
Proof.
  induction trace as [|ev trace IH]; intros over s Hsp Inv; [now exists over|].
  change (run (ev :: trace) s) with (run trace (step ev s)).
  apply (IH (pointerAfter ev over)).
  - now apply singlePointer_cons in Hsp.
  - now apply (overlayInvariant_step over ev trace).
Qed.

End Overlay.

Section OverlayClaim.
Import PaperViewer App.

Lemma run_snoc trace ev s : run (trace ++ [ev]) s = step ev (run trace s).
Proof. unfold run. now rewrite fold_left_app. Qed.

(** C7.  In every state reached by events that one pointer can deliver, at
    most one page shows a selection box, and it is the active page; a
    pointer-down on a rendered page [n] leaves the box on [n] and on no
    other page. *)
Theorem one_overlay_at_a_time :
  forall trace,
    singlePointer None trace = true ->
    let v := viewer (run trace initial) in
    (forall p q, showsBox v p -> showsBox v q -> p = q) /\
    (forall p, showsBox v p -> activeSelectionPage v = Some p) /\
    (forall n canvas e st,
        pages v !! n = Some st ->
        singlePointer None (trace ++ [MouseDown n canvas e]) = true ->
        let v' := viewer (step (MouseDown n canvas e) (run trace initial)) in
        showsBox v' n /\ forall p, p <> n -> ~ showsBox v' p).
Proof.
  intros trace Hsp v.
  assert (forall tr, singlePointer None tr = true ->
            forall p, showsBox (viewer (run tr initial)) p ->
                      activeSelectionPage (viewer (run tr initial)) = Some p) as Hactive.
  { intros tr Htr p (st & box & Hp & Hb).
    destruct (overlayInvariant_run tr None initial Htr overlayInvariant_initial)
      as (over' & Inv1 & _).
    eapply Inv1; eauto. }
  split; [|split].
  - intros p q Hp Hq. apply (Hactive trace Hsp) in Hp, Hq. fold v in Hp, Hq. congruence.
  - exact (Hactive trace Hsp).
  - intros n canvas e st Hn Hsp' v'.
    assert (activeSelectionPage v' = Some n /\ showsBox v' n) as [Hact Hshows].
    { subst v'. simpl step. rewrite viewer_pointer. fold v.
      rewrite (onPage_down n canvas e v st Hn). simpl. split; [reflexivity|].
      exists (fst (PDFPage.handleMouseDown n canvas e st)).
      eexists. split; [|reflexivity].
      destruct (activeSelectionPage v) as [a|]; [|apply lookup_insert_eq].
      destruct (bool_decide (a = n)) eqn:Han; [apply lookup_insert_eq|].
      apply bool_decide_eq_false_1 in Han. simpl.
      rewrite lookup_alter_ne by exact Han. apply lookup_insert_eq. }
    split; [exact Hshows|]. intros p Hne Hp.
    pose proof (Hactive _ Hsp' p) as H. rewrite run_snoc in H. specialize (H Hp).
    fold v' in H. congruence.
Qed.

Lemma one_overlay_at_a_time_witness :
  singlePointer None thenDragOnPage2 = true /\
  forall p, showsBox (viewer (run thenDragOnPage2 initial)) p ->
            activeSelectionPage (viewer (run thenDragOnPage2 initial)) = Some p.
Proof.
  split; [vm_compute; reflexivity|].
  exact (proj1 (proj2 (one_overlay_at_a_time thenDragOnPage2 eq_refl))).
Defined.

End OverlayClaim.

(** * Loading a document *)

Section Loading.
Import PaperViewer App.

(** C8 as the code has it.  Choosing a file stores it, sets the committed
    selection to null and empties the insight list, and touches nothing of
    the viewer; when the file has been parsed, successfully or not, the
    selection is still null, the list still empty, and the active-selection
    page is the one it was before the upload. *)
Theorem upload_resets_selection_and_insights :
  forall s f fs parsed,
    let chosen := step (FileChosen (Some (f :: fs))) s in
    let loaded := step (PdfParsed parsed) chosen in
    file chosen = Some f /\
    currentSelection chosen = None /\ insights chosen = [] /\
    viewer chosen = viewer s /\
    currentSelection loaded = None /\ insights loaded = [] /\
    activeSelectionPage (viewer loaded) = activeSelectionPage (viewer s).
Proof.
  intros s f fs parsed chosen loaded. subst loaded chosen.
  repeat split. now destruct parsed.
Qed.

(** C8 as the claim words it fails: after a selection on page 1, a new
    document is chosen and parsed, and page 1 is still the active-selection
    page. *)
Lemma upload_keeps_active_page :
  ~ (forall s f fs doc,
       let loaded := step (PdfParsed (Normal doc)) (step (FileChosen (Some (f :: fs))) s) in
       currentSelection loaded = None /\ insights loaded = [] /\
       activeSelectionPage (viewer loaded) = None).
Proof.
  intros H.
  specialize (H (run selectOnPage1 initial) (mkFile "other.pdf") []
                (PaperViewer.mkDoc "other.pdf" 2)).
  destruct H as (_ & _ & H). vm_compute in H. discriminate H.
Qed.

(** C9 as the code has it.  When the parse fails, [onload] catches the
    error and returns; the state is exactly what it was before, so the
    document handle is the one the viewer had (none if none had been
    loaded); and a later upload that parses exposes its document. *)
Theorem failed_parse_changes_nothing :
  forall s error,
    let failed := step (PdfParsed (Throw error)) s in
    onload (Throw error) (viewer s) = Normal (viewer s) /\
    failed = s /\
    pdfDoc (viewer failed) = pdfDoc (viewer s) /\
    (forall f fs doc,
        pdfDoc (viewer (step (PdfParsed (Normal doc))
                          (step (FileChosen (Some (f :: fs))) failed))) = Some doc).
Proof.
  intros s error failed. subst failed. split; [reflexivity|]. split.
  - now destruct s.
  - split; reflexivity.
Qed.

(** C9 as the claim words it fails: with a document on display, a second
    file is chosen and fails to parse; the first document is still the
    viewer's document and its pages are still mounted. *)
Lemma failed_parse_keeps_previous_document :
  ~ (forall s f fs error,
       let failed := step (PdfParsed (Throw error)) (step (FileChosen (Some (f :: fs))) s) in
       pdfDoc (viewer failed) = None /\ pages (viewer failed) = ∅).
Proof.
  intros H.
  specialize (H (run selectOnPage1 initial) (mkFile "broken.pdf") []
                (ErrorObject "Invalid PDF structure.")).
  destruct H as [H _]. vm_compute in H. discriminate H.
Qed.

End Loading.

(** * The generation service *)

Section Generation.
Import GeminiService App.

Lemma extractImage_none ps :
  (forall p, p ∈ ps -> inlineData p = None) -> extractImage ps = "No image generated.".
Proof.
  induction ps as [|p ps IH]; intros Hnone; [reflexivity|]. simpl.
  rewrite (Hnone p) by left. apply IH. intros q Hq. apply Hnone. now right.
Qed.

Lemma textOrFallback_none response :
  text response = None \/ text response = Some EmptyString ->
  textOrFallback response = "No response generated.".
Proof. unfold textOrFallback. now intros [-> | ->]. Qed.

Lemma InsightType_eqb_eq a b : InsightType_eqb a b = true <-> a = b.
Proof. destruct a, b; simpl; split; congruence. Qed.

Lemma error_text_prefix s :
  String.prefix "Error generating insight:" ("Error generating insight: " +:+ s) = true.
Proof. reflexivity. Qed.

(** C10 as the code has it.  Once [new GoogleGenAI(...)] has returned a
    client, [generateInsight] returns a string however the generation call
    settles: the text [Error generating insight: ...] when the call threw,
    [No image generated.] when an infographic response carries no inline
    data in the parts of its first candidate, [No response generated.] when
    a text response has no or an empty text.  The continuation of
    [handleAction] then writes that string through its [try] branch. *)
Theorem generateInsight_returns_once_client_is_built :
  forall (Client : Type)
         (newGoogleGenAI : option string -> Completion Client)
         (generateContent : Client -> Request -> Completion Response)
         (apiKey : option string) (ai : Client)
         (image : string) (ty : InsightType) (context : option string),
    newGoogleGenAI apiKey = Normal ai ->
    let call := generateContent ai (request image ty context) in
    exists result,
      generateInsight newGoogleGenAI generateContent apiKey image ty context
        = Normal result /\
      (forall error, call = Throw error ->
         result = "Error generating insight: " +:+ describe error /\
         String.prefix "Error generating insight:" result = true) /\
      (forall response, call = Normal response -> ty = INFOGRAPHIC ->
         (forall p, p ∈ firstCandidateParts response -> inlineData p = None) ->
         result = "No image generated.") /\
      (forall response, call = Normal response -> ty <> INFOGRAPHIC ->
         text response = None \/ text response = Some EmptyString ->
         result = "No response generated.") /\
      (forall newId,
         handleAction_resume newId
           (generateInsight newGoogleGenAI generateContent apiKey image ty context)
         = Normal [Settle newId result]).
Proof.
  intros Client newGoogleGenAI generateContent apiKey ai image ty context Hai call.
  unfold generateInsight. rewrite Hai. simpl bind. unfold generateInsight_try.
  fold call. destruct call as [response|error] eqn:Hcall.
  - destruct (InsightType_eqb ty INFOGRAPHIC) eqn:Hty; simpl; eexists;
      (split; [reflexivity|]); (split; [discriminate|]).
    + split; [|split; [|reflexivity]].
      * intros r [= <-] _ Hnone. now apply extractImage_none.
      * intros r _ Hne. apply InsightType_eqb_eq in Hty. contradiction.
    + split; [|split; [|reflexivity]].
      * intros r _ Heq. apply InsightType_eqb_eq in Heq. congruence.
      * intros r [= <-] _ Hnone. now apply textOrFallback_none.
  - exists ("Error generating insight: " +:+ describe error).
    split; [now destruct (InsightType_eqb ty INFOGRAPHIC)|].
    split; [intros e [= <-]; split; [reflexivity | apply error_text_prefix]|].
    split; [discriminate|]. split; [discriminate|].
    intros newId. now destruct (InsightType_eqb ty INFOGRAPHIC).
Qed.

Lemma generateInsight_returns_once_client_is_built_witness :
  generateInsight strictConstructor overQuota (Some "key")
    "data:image/png;base64,iVBORw0KGgo=" CODE None
  = Normal "Error generating insight: 429 RESOURCE_EXHAUSTED".
Proof.
  destruct (generateInsight_returns_once_client_is_built unit strictConstructor overQuota
              (Some "key") tt "data:image/png;base64,iVBORw0KGgo=" CODE None eq_refl)
    as (result & Hres & Hthrow & _).
  destruct (Hthrow (ErrorObject "429 RESOURCE_EXHAUSTED") eq_refl) as [-> _].
  exact Hres.
Defined.

(** C10 as the claim words it fails: the client is built before the [try]
    block, so when its constructor throws (no key), [generateInsight]
    rejects, and [handleAction] takes its [catch] branch. *)
Lemma generateInsight_rejects_when_constructor_throws :
  ~ (forall (Client : Type)
            (newGoogleGenAI : option string -> Completion Client)
            (generateContent : Client -> Request -> Completion Response)
            (apiKey : option string)
            (image : string) (ty : InsightType) (context : option string),
       settled_ok (generateInsight newGoogleGenAI generateContent apiKey image ty context)
         = true).
Proof.
  intros H.
  specialize (H unit strictConstructor overQuota None
                "data:image/png;base64,iVBORw0KGgo=" EXPLAIN None).
  discriminate H.
Qed.

End Generation.

(** * Further properties of the selection handlers *)

Section SelectionMore.
Import PDFPage.





End SelectionMore.

(** * Further invariants of the session *)

Section SessionMore.
Import PaperViewer App.

Lemma report_fields reports : forall v,
  pdfDoc (fold_left report reports v) = pdfDoc v /\
  pages (fold_left report reports v) = pages v /\
  (is_Some (activeSelectionPage v) ->
   is_Some (activeSelectionPage (fold_left report reports v))).
Proof.
  induction reports as [|r reports IH]; intros v; [now repeat split|].
  simpl. destruct (IH (report v r)) as (Hdoc & Hpages & Hact).
  rewrite Hdoc, Hpages. destruct r; simpl in *; repeat split; eauto.
Qed.

Lemma flushEffects_fields before v :
  pdfDoc (flushEffects before v) = pdfDoc v /\
  activeSelectionPage (flushEffects before v) = activeSelectionPage v /\
  forall k, exists g, pages (flushEffects before v) !! k = g <$> (pages v !! k).
Proof.
  unfold flushEffects. destruct before as [a|].
  - destruct (bool_decide (activeSelectionPage v = Some a)); simpl.
    + repeat split. intros k. exists (fun st => st). now rewrite option_fmap_id.
    + repeat split. intros k. rewrite lookup_alter.
      destruct (decide (a = k)) as [->|_]; [now eexists|].
      exists (fun st => st). now rewrite option_fmap_id.
  - repeat split. intros k. exists (fun st => st). now rewrite option_fmap_id.
Qed.

(** What any handler of any page can do to the viewer: the document stays,
    the active page is not cleared, and every page that was mounted stays
    mounted, no other. *)
Lemma onPage_fields n handler v :
  pdfDoc (fst (onPage n handler v)) = pdfDoc v /\
  (is_Some (activeSelectionPage v) ->
   is_Some (activeSelectionPage (fst (onPage n handler v)))) /\
  forall k, is_Some (pages (fst (onPage n handler v)) !! k) <-> is_Some (pages v !! k).
Proof.
  unfold onPage. destruct (pages v !! n) as [st|] eqn:Hn; [|now repeat split].
  destruct (handler st) as [st' reports]. simpl.
  set (v1 := {| pdfDoc := pdfDoc v; activeSelectionPage := activeSelectionPage v;
                pages := <[n := st']> (pages v) |}).
  destruct (report_fields reports v1) as (Hdoc & Hpages & Hact).
  destruct (flushEffects_fields (activeSelectionPage v) (fold_left report reports v1))
    as (Hdoc' & Hact' & Hpages').
  rewrite Hdoc', Hdoc, Hact'. repeat split; [exact Hact| |].
  - destruct (Hpages' k) as [g ->]. rewrite fmap_is_Some, Hpages. simpl.
    destruct (decide (n = k)) as [<-|Hne];
      [now rewrite Hn | now rewrite lookup_insert_ne].
  - destruct (Hpages' k) as [g ->]. rewrite fmap_is_Some, Hpages. simpl.
    destruct (decide (n = k)) as [<-|Hne];
      [rewrite lookup_insert_eq; eauto | now rewrite lookup_insert_ne].
Qed.

(** The pages rendered for a document, looked up by number. *)
Lemma mount_lookup_exact doc old n :
  mount (Some doc) old !! n =
    if bool_decide (1 <= n <= numPages doc)%nat
    then Some (default PDFPage.initial (old !! n)) else None.
Proof.
  unfold mount. case_bool_decide as Hn.
  - apply elem_of_list_to_map_1.
    + rewrite <- list_fmap_compose. simpl.
      rewrite list_fmap_id. apply NoDup_seq.
    + apply list_elem_of_fmap. exists n. split; [reflexivity|].
      apply elem_of_seq. lia.
  - apply not_elem_of_list_to_map_1. rewrite <- list_fmap_compose. simpl.
    rewrite list_fmap_id. rewrite elem_of_seq. lia.
Qed.

Lemma viewer_parsed doc s :
  viewer (step (PdfParsed (Normal doc)) s) = setPdfDoc (Some doc) (viewer s).
Proof. reflexivity. Qed.

Lemma pagesMatchDocument_step ev s :
  pagesMatchDocument (viewer s) -> pagesMatchDocument (viewer (step ev s)).
Proof.
  intros Inv. event_cases ev; simpl step; rewrite ?viewer_pointer; trivial.
  - unfold handleFileUpload. now destruct files as [[|f fs]|].
  - destruct parsed as [doc|error]; [|exact Inv].
    change (pagesMatchDocument (setPdfDoc (Some doc) (viewer s))).
    intros k. unfold setPdfDoc. cbn [pages pdfDoc].
    rewrite mount_lookup_exact. case_bool_decide as Hk.
    + split; [eauto | intros _; eauto].
    + split; [intros [st Hst]; discriminate|].
      intros (d & [= <-] & Hd). contradiction.
  - intros k. destruct (onPage_fields n (PDFPage.handleMouseDown n c e) (viewer s))
      as (-> & _ & ->). apply Inv.
  - intros k. destruct (onPage_fields n (PDFPage.handleMouseMove c e) (viewer s))
      as (-> & _ & ->). apply Inv.
  - intros k. destruct (onPage_fields n (PDFPage.handleMouseUp n c sn) (viewer s))
      as (-> & _ & ->). apply Inv.
  - intros k. destruct (onPage_fields n (PDFPage.handleMouseUp n c sn) (viewer s))
      as (-> & _ & ->). apply Inv.
Qed.

Lemma pagesMatchDocument_run trace : forall s,
  pagesMatchDocument (viewer s) -> pagesMatchDocument (viewer (run trace s)).
Proof.
  induction trace as [|ev trace IH]; intros s Inv; [exact Inv|].
  apply IH. now apply pagesMatchDocument_step.
Qed.

(** X4.  In every state the session can reach, the mounted pages are the
    pages 1 to [numPages] of the document on display, and no page is
    mounted while there is no document. *)
Theorem mounted_pages_are_the_documents_pages :
  forall trace n,
    let v := viewer (run trace initial) in
    is_Some (pages v !! n) <->
    exists d, pdfDoc v = Some d /\ (1 <= n <= numPages d)%nat.
Proof.
  intros trace n v. apply (pagesMatchDocument_run trace initial).
  intros k. simpl. rewrite lookup_empty. split.
  - intros [st Hst]. discriminate.
  - intros (d & Hd & _). discriminate.
Qed.

Lemma activeSelectionPage_step ev s :
  is_Some (activeSelectionPage (viewer s)) ->
  is_Some (activeSelectionPage (viewer (step ev s))).
Proof.
  intros Hact. event_cases ev; simpl step; rewrite ?viewer_pointer; trivial;
    try (now apply onPage_fields).
  - unfold handleFileUpload. now destruct files as [[|f fs]|].
  - now destruct parsed.
Qed.

(** X5.  Once a selection has been started on some page, the
    active-selection page is never null again: no upload, parse, release,
    cancel, action or completion clears it. *)
Theorem active_page_is_never_cleared :
  forall trace s,
    is_Some (activeSelectionPage (viewer s)) ->
    is_Some (activeSelectionPage (viewer (run trace s))).
Proof.
  induction trace as [|ev trace IH]; intros s Hact; [exact Hact|].
  apply IH. now apply activeSelectionPage_step.
Qed.

Lemma active_page_is_never_cleared_witness :
  is_Some (activeSelectionPage
             (viewer (run [CancelClicked;
                           FileChosen (Some [mkFile "other.pdf"]);
                           PdfParsed (Throw (ErrorObject "Invalid PDF structure."))]
                          (run selectOnPage1 initial)))).
Proof.
  apply (active_page_is_never_cleared _ (run selectOnPage1 initial)).
  vm_compute. eauto.
Defined.

(** X6.  The box a page shows survives the loading of another document:
    when the new document has a page of that number, the page keeps its
    state, so the box drawn on the old document is still shown. *)
Theorem overlay_survives_new_document :
  forall s f fs doc n,
    showsBox (viewer s) n ->
    (1 <= n <= numPages doc)%nat ->
    showsBox (viewer (step (PdfParsed (Normal doc))
                        (step (FileChosen (Some (f :: fs))) s))) n.
Proof.
  intros s f fs doc n (st & box & Hst & Hbox) Hn.
  exists st, box. split; [|exact Hbox].
  rewrite viewer_parsed. unfold setPdfDoc. cbn [pages].
  rewrite mount_lookup_exact, bool_decide_eq_true_2 by exact Hn.
  simpl in Hst |- *. now rewrite Hst.
Qed.

Lemma overlay_survives_new_document_witness :
  showsBox (viewer (step (PdfParsed (Normal (mkDoc "other.pdf" 2)))
                      (step (FileChosen (Some [mkFile "other.pdf"]))
                         (run selectOnPage1 initial)))) 1.
Proof.
  apply overlay_survives_new_document.
  - eexists _, _. split; vm_compute; reflexivity.
  - simpl. lia.
Defined.

End SessionMore.

(** * The committed selection *)

Section CommittedSelection.
Import PaperViewer App.

Lemma emitted_down n canvas e st :
  PDFPage.emitted (snd (PDFPage.handleMouseDown n canvas e st)) = [].
Proof. reflexivity. Qed.

Lemma emitted_move canvas e st :
  PDFPage.emitted (snd (PDFPage.handleMouseMove canvas e st)) = [].
Proof. now rewrite move_reports. Qed.

Lemma emitted_up n canvas snapshot st d :
  d ∈ PDFPage.emitted (snd (PDFPage.handleMouseUp n canvas snapshot st)) ->
  ~ tooSmall (rect d) /\ pageNumber d = n /\
  PDFPage.selectionBox st = Some (rect d) /\ snapshot = Some (imageBase64 d).
Proof.
  unfold PDFPage.handleMouseUp.
  destruct (PDFPage.isSelecting st), (PDFPage.selectionBox st) as [box|], canvas;
    simpl; try (intros H; now inversion H).
  destruct ((width box <? 10) || (height box <? 10)) eqn:Hsmall;
    [intros H; now inversion H|].
  destruct snapshot as [image|]; simpl; [|intros H; now inversion H].
  intros ->%list_elem_of_singleton. simpl. repeat split; trivial.
  rewrite <- tooSmall_test, Hsmall. discriminate.
Qed.

Lemma onPage_emitted n handler v d :
  d ∈ snd (onPage n handler v) ->
  exists st, pages v !! n = Some st /\ d ∈ PDFPage.emitted (snd (handler st)).
Proof.
  unfold onPage. destruct (pages v !! n) as [st|]; [|intros H; now inversion H].
  destruct (handler st) as [st' reports] eqn:Hh. simpl. intros Hd.
  exists st. now rewrite Hh.
Qed.

Lemma currentSelection_selections datas : forall s sel,
  currentSelection (fold_left (fun s d => handleSelectionComplete d s) datas s) = Some sel ->
  sel ∈ datas \/ currentSelection s = Some sel.
Proof.
  induction datas as [|d datas IH]; intros s sel; simpl; [now right|].
  intros [Hin | Hsel]%IH; [left; now right|].
  simpl in Hsel. injection Hsel as ->. left. left.
Qed.

Lemma currentSelection_pointer n handler s sel :
  currentSelection (pointer n handler s) = Some sel ->
  sel ∈ snd (onPage n handler (viewer s)) \/ currentSelection s = Some sel.
Proof.
  unfold pointer. destruct (onPage n handler (viewer s)) as [v datas]. simpl.
  intros H. apply currentSelection_selections in H. exact H.
Qed.

Lemma currentSelection_quiet n handler s :
  (forall st, PDFPage.emitted (snd (handler st)) = []) ->
  currentSelection (pointer n handler s) = currentSelection s.
Proof.
  intros Hquiet. unfold pointer, onPage.
  destruct (pages (viewer s) !! n) as [st|]; [|reflexivity].
  specialize (Hquiet st). destruct (handler st) as [st' reports].
  simpl in Hquiet. now rewrite Hquiet.
Qed.

Lemma currentSelection_untouched ev s :
  touchesSelection ev = false ->
  currentSelection (step ev s) = currentSelection s.
Proof.
  intros Hev. event_cases ev; try discriminate Hev; simpl step; trivial.
  - apply currentSelection_quiet. intros st. apply emitted_down.
  - apply currentSelection_quiet. intros st. apply emitted_move.
Qed.

(** X7.  Only a pointer release, a file upload or the cancel button changes
    the committed selection: a pointer-down (also on another page), a move,
    an action, a completion, a removal and a parsed document all leave it
    as it is, along any sequence of such events. *)
Theorem selection_changes_only_on_release_upload_cancel :
  forall trace s,
    forallb (fun ev => negb (touchesSelection ev)) trace = true ->
    currentSelection (run trace s) = currentSelection s.
Proof.
  induction trace as [|ev trace IH]; intros s Hall; [reflexivity|].
  simpl in Hall. apply andb_prop in Hall as [Hev Hall].
  change (run (ev :: trace) s) with (run trace (step ev s)).
  rewrite (IH _ Hall). apply currentSelection_untouched.
  now apply negb_true_iff.
Qed.

Lemma selection_changes_only_on_release_upload_cancel_witness :
  currentSelection
    (run [MouseDown 2 sampleCanvas (PDFPage.mkMouse 30 40);
          MouseMove 2 sampleCanvas (PDFPage.mkMouse 90 20);
          ActionClicked CODE 1700000000000 1700000000000]
         (run selectOnPage1 initial))
  = currentSelection (run selectOnPage1 initial).
Proof.
  exact (selection_changes_only_on_release_upload_cancel
           [MouseDown 2 sampleCanvas (PDFPage.mkMouse 30 40);
            MouseMove 2 sampleCanvas (PDFPage.mkMouse 90 20);
            ActionClicked CODE 1700000000000 1700000000000]
           (run selectOnPage1 initial) eq_refl).
Defined.

Lemma committedInvariant_step ev s :
  pagesMatchDocument (viewer s) ->
  (forall sel, currentSelection s = Some sel ->
     10 <= width (rect sel) /\ 10 <= height (rect sel) /\ (1 <= pageNumber sel)%nat) ->
  forall sel, currentSelection (step ev s) = Some sel ->
     10 <= width (rect sel) /\ 10 <= height (rect sel) /\ (1 <= pageNumber sel)%nat.
Proof.
  intros Hpages Inv sel.
  assert (forall n c sn,
            currentSelection (pointer n (PDFPage.handleMouseUp n c sn) s) = Some sel ->
            10 <= width (rect sel) /\ 10 <= height (rect sel) /\ (1 <= pageNumber sel)%nat)
    as Hup.
  { intros n c sn [Hin | Hold]%currentSelection_pointer; [|now apply Inv].
    apply onPage_emitted in Hin as (st & Hst & Hin).
    apply emitted_up in Hin as (Hbig & Hpage & _). unfold tooSmall in Hbig.
    assert (is_Some (pages (viewer s) !! n)) as Hn by eauto.
    apply Hpages in Hn as (d & _ & Hn). lia. }
  destruct (touchesSelection ev) eqn:Hev.
  - event_cases ev; try discriminate Hev; simpl step.
    + unfold handleFileUpload. destruct files as [[|f fs]|]; simpl; try apply Inv.
      discriminate.
    + apply Hup.
    + apply Hup.
    + discriminate.
  - rewrite (currentSelection_untouched ev s Hev). apply Inv.
Qed.

(** X8.  In every state the session can reach, a committed selection is at
    least 10 wide and 10 high and lies on a page number of at least 1. *)
Theorem committed_selection_is_ten_by_ten :
  forall trace sel,
    currentSelection (run trace initial) = Some sel ->
    10 <= width (rect sel) /\ 10 <= height (rect sel) /\ (1 <= pageNumber sel)%nat.
Proof.
  intros trace.
  assert (forall s,
            pagesMatchDocument (viewer s) ->
            (forall sel, currentSelection s = Some sel ->
               10 <= width (rect sel) /\ 10 <= height (rect sel) /\
               (1 <= pageNumber sel)%nat) ->
            forall sel, currentSelection (run trace s) = Some sel ->
               10 <= width (rect sel) /\ 10 <= height (rect sel) /\
               (1 <= pageNumber sel)%nat) as Hrun.
  { induction trace as [|ev trace IH]; intros s Hpages Inv; [exact Inv|].
    apply IH; [now apply pagesMatchDocument_step | now apply committedInvariant_step]. }
  apply Hrun.
  - intros k. simpl. rewrite lookup_empty. split.
    + intros [st Hst]. discriminate.
    + intros (d & Hd & _). discriminate.
  - discriminate.
Qed.

Lemma committed_selection_is_ten_by_ten_witness :
  let sel := {| pageNumber := 1;
                rect := {| x := 10; y := 10; width := 50; height := 50 |};
                imageBase64 := "data:image/png;base64,iVBORw0KGgo=" |} in
  currentSelection (run selectOnPage1 initial) = Some sel /\
  10 <= width (rect sel) /\ 10 <= height (rect sel) /\ (1 <= pageNumber sel)%nat.
Proof.
  intros sel. split; [reflexivity|].
  exact (committed_selection_is_ten_by_ten selectOnPage1 sel eq_refl).
Defined.

End CommittedSelection.

(** * Further properties of the insight list *)

Section InsightListMore.
Import App.

Lemma run_app t1 t2 s : run (t1 ++ t2) s = run t2 (run t1 s).
Proof. unfold run. apply fold_left_app. Qed.

Lemma clicks_run actions : forall s sel,
  currentSelection s = Some sel ->
  insights (run (clicks actions) s) = insights s ++ created actions /\
  currentSelection (run (clicks actions) s) = Some sel.
Proof.
  induction actions as [|[[ty nowId] nowTs] actions IH]; intros s sel Hsel.
  - simpl. now rewrite app_nil_r.
  - change (run (clicks (((ty, nowId), nowTs) :: actions)) s)
      with (run (clicks actions) (step (ActionClicked ty nowId nowTs) s)).
    destruct (IH (step (ActionClicked ty nowId nowTs) s) sel) as [Hl Hs];
      [exact Hsel|].
    split; [|exact Hs]. rewrite Hl. simpl. unfold handleAction_begin.
    rewrite Hsel. simpl. now rewrite <- app_assoc.
Qed.

(** X9.  A burst of N actions on a committed selection appends exactly N
    entries, in the order of the clicks, each loading with empty content
    and carrying its own type and clock readings; the selection stays
    committed, so it need not be drawn again. *)
Theorem actions_append_one_entry_each :
  forall s sel actions,
    currentSelection s = Some sel ->
    let s' := run (clicks actions) s in
    insights s' = insights s ++ created actions /\
    length (insights s') = (length (insights s) + length actions)%nat /\
    currentSelection s' = Some sel /\
    (forall r, r ∈ created actions -> isLoading r = true /\ content r = EmptyString).
Proof.
  intros s sel actions Hsel s'. subst s'.
  destruct (clicks_run actions s sel Hsel) as [Hl Hs].
  split; [exact Hl|]. split.
  - rewrite Hl, length_app. unfold created. now rewrite length_fmap.
  - split; [exact Hs|]. unfold created.
    intros r ([[ty nowId] nowTs] & -> & _)%list_elem_of_fmap. now split.
Qed.

Lemma actions_append_one_entry_each_witness :
  type <$> insights (run (clicks [(EXPLAIN, 1700000000000, 1700000000000);
                                  (CODE, 1700000000450, 1700000000450);
                                  (EXPLAIN, 1700000000900, 1700000000900)])
                         (run selectOnPage1 initial))
  = [EXPLAIN; CODE; EXPLAIN].
Proof.
  destruct (actions_append_one_entry_each (run selectOnPage1 initial)
              {| pageNumber := 1;
                 rect := {| x := 10; y := 10; width := 50; height := 50 |};
                 imageBase64 := "data:image/png;base64,iVBORw0KGgo=" |}
              [(EXPLAIN, 1700000000000, 1700000000000);
               (CODE, 1700000000450, 1700000000450);
               (EXPLAIN, 1700000000900, 1700000000900)] eq_refl) as (-> & _).
  reflexivity.
Defined.

(** X10.  A completion changes nothing but [content] and [isLoading]: the
    list keeps its length and its order, and every entry keeps its id, its
    type and its timestamp. *)
Theorem completion_keeps_the_list_shape :
  forall s newId outcome,
    let s' := step (RequestSettled newId outcome) s in
    length (insights s') = length (insights s) /\
    id <$> insights s' = id <$> insights s /\
    type <$> insights s' = type <$> insights s /\
    timestamp <$> insights s' = timestamp <$> insights s /\
    file s' = file s /\ currentSelection s' = currentSelection s /\
    viewer s' = viewer s.
Proof.
  intros s newId outcome s'. subst s'. rewrite insights_settled.
  split; [simpl; apply length_fmap|]. split; [apply ids_settle|].
  split; [|split].
  - simpl. rewrite <- list_fmap_compose. apply list_fmap_ext.
    intros k i _. simpl. now destruct (String.eqb (id i) newId).
  - simpl. rewrite <- list_fmap_compose. apply list_fmap_ext.
    intros k i _. simpl. now destruct (String.eqb (id i) newId).
  - now destruct outcome.
Qed.

Lemma filter_settle target text l :
  apply (Filter target) (apply (Settle target text) l) = apply (Filter target) l.
Proof.
  unfold apply. induction l as [|i l IH]; [reflexivity|]. rewrite fmap_cons.
  destruct (String.eqb (id i) target) eqn:Heq.
  - rewrite !filter_cons_False; [exact IH | |]; simpl; rewrite Heq; discriminate.
  - rewrite !filter_cons_True; [now rewrite IH | |]; simpl; now rewrite Heq.
Qed.

Lemma state_eq (a b : State) :
  file a = file b -> insights a = insights b ->
  currentSelection a = currentSelection b -> viewer a = viewer b -> a = b.
Proof. destruct a, b. simpl. now intros -> -> -> ->. Qed.

Lemma insights_closed target s :
  insights (step (CloseClicked target) s) = apply (Filter target) (insights s).
Proof. reflexivity. Qed.

(** X11.  Closing an entry and the completion of its request can come in
    either order: both orders end in the state that closing alone gives,
    with no entry of that id. *)
Theorem close_and_completion_in_either_order :
  forall s target outcome,
    let closed := step (CloseClicked target) s in
    step (CloseClicked target) (step (RequestSettled target outcome) s) = closed /\
    step (RequestSettled target outcome) closed = closed /\
    (forall r, r ∈ insights closed -> id r <> target).
Proof.
  intros s target outcome closed. subst closed. split; [|split].
  - apply state_eq; try reflexivity.
    rewrite !insights_closed, insights_settled. apply filter_settle.
  - apply state_eq; try reflexivity.
    rewrite insights_settled. apply settle_absent.
    intros r Hr. now apply (closed_id_is_absent s).
  - intros r Hr. now apply (closed_id_is_absent s).
Qed.

(** X12.  The close button removes exactly the entries that carry the id
    and keeps the others in their order; closing twice is closing once, and
    two closings commute. *)
Theorem close_removes_exactly_the_id :
  forall s t1 t2,
    let closed := step (CloseClicked t1) s in
    (forall r, r ∈ insights closed <-> r ∈ insights s /\ id r <> t1) /\
    insights closed `sublist_of` insights s /\
    step (CloseClicked t1) closed = closed /\
    step (CloseClicked t2) closed = step (CloseClicked t1) (step (CloseClicked t2) s).
Proof.
  intros s t1 t2 closed. subst closed. split; [|split; [|split]].
  - intros r. rewrite insights_closed. simpl. rewrite list_elem_of_filter.
    rewrite negb_true_iff, String.eqb_neq. tauto.
  - rewrite insights_closed. simpl. apply sublist_filter.
  - apply state_eq; try reflexivity. rewrite !insights_closed. simpl.
    rewrite list_filter_filter. apply list_filter_iff. tauto.
  - apply state_eq; try reflexivity. rewrite !insights_closed. simpl.
    rewrite !list_filter_filter. apply list_filter_iff. tauto.
Qed.

End InsightListMore.

(** * Further properties of the generation service *)

Section GenerationMore.
Import GeminiService App.

Lemma strip_prefix_Some p : forall s r,
  strip_prefix p s = Some r -> s = p +:+ r.
Proof.
  induction p as [|a p IH]; intros s r; simpl.
  - now intros [= ->].
  - destruct s as [|b s]; [discriminate|].
    destruct (Ascii.eqb a b) eqn:Hab; [|discriminate].
    apply Ascii.eqb_eq in Hab. subst b. intros H. now rewrite (IH _ _ H).
Qed.

(** X13.  [cleanBase64] removes one leading data-URL header of a PNG or
    JPEG image and nothing else: what follows the header is returned as it
    is, and a string that does not begin with [data:image/] is returned
    unchanged. *)
Theorem cleanBase64_strips_one_header :
  forall d s,
    cleanBase64 ("data:image/png;base64," +:+ d) = d /\
    cleanBase64 ("data:image/jpeg;base64," +:+ d) = d /\
    cleanBase64 ("data:image/jpg;base64," +:+ d) = d /\
    cleanBase64 ("data:image/png;base64," +:+ ("data:image/png;base64," +:+ d))
      = "data:image/png;base64," +:+ d /\
    (String.prefix "data:image/" s = false -> cleanBase64 s = s).
Proof.
  intros d s. repeat split. intros Hs. unfold cleanBase64.
  destruct (strip_prefix "data:image/png;base64," s) as [r|] eqn:H1.
  { apply strip_prefix_Some in H1. subst s. discriminate Hs. }
  destruct (strip_prefix "data:image/jpeg;base64," s) as [r|] eqn:H2.
  { apply strip_prefix_Some in H2. subst s. discriminate Hs. }
  destruct (strip_prefix "data:image/jpg;base64," s) as [r|] eqn:H3.
  { apply strip_prefix_Some in H3. subst s. discriminate Hs. }
  reflexivity.
Qed.

(** X14.  The image taken from a response is the first part that carries
    inline data; parts before it without inline data are skipped and parts
    after it are not looked at.  Its data comes back as a PNG data URL,
    from which [cleanBase64] recovers the data. *)
Theorem extractImage_takes_the_first_inline_part :
  forall before p d rest,
    (forall q, q ∈ before -> inlineData q = None) ->
    inlineData p = Some d ->
    extractImage (before ++ p :: rest) = "data:image/png;base64," +:+ dataText d /\
    cleanBase64 (extractImage (before ++ p :: rest)) = dataText d.
Proof.
  intros before p d rest Hnone Hp.
  assert (extractImage (before ++ p :: rest) = "data:image/png;base64," +:+ dataText d)
    as Heq.
  { induction before as [|q before IH]; simpl.
    - now rewrite Hp.
    - rewrite (Hnone q) by left. apply IH. intros q' Hq'. apply Hnone. now right. }
  split; [exact Heq|]. now rewrite Heq.
Qed.

Lemma extractImage_takes_the_first_inline_part_witness :
  extractImage [mkPart None; mkPart (Some (mkInline (Some "iVBORw0KGgo=")));
                mkPart (Some (mkInline (Some "AAAA")))]
  = "data:image/png;base64,iVBORw0KGgo=".
Proof.
  refine (proj1 (extractImage_takes_the_first_inline_part
                   [mkPart None] (mkPart (Some (mkInline (Some "iVBORw0KGgo="))))
                   (mkInline (Some "iVBORw0KGgo="))
                   [mkPart (Some (mkInline (Some "AAAA")))] _ eq_refl)).
  intros q Hq. apply list_elem_of_singleton in Hq. now subst q.
Defined.

Lemma extractImage_is_image ps :
  String.prefix "data:image" (extractImage ps) = true <->
  exists p, p ∈ ps /\ is_Some (inlineData p).
Proof.
  induction ps as [|p ps IH]; simpl.
  - split; [discriminate|]. intros (p & Hp & _). inversion Hp.
  - destruct (inlineData p) as [d|] eqn:Hd.
    + split; [|reflexivity]. intros _. exists p. split; [left | rewrite Hd; eauto].
    + rewrite IH. split.
      * intros (q & Hq & Hs). exists q. split; [now right | exact Hs].
      * intros (q & Hq & Hs). apply elem_of_cons in Hq as [-> | Hq].
        -- rewrite Hd in Hs. now destruct Hs.
        -- eauto.
Qed.

Lemma extractImage_nonempty ps : extractImage ps <> EmptyString.
Proof.
  induction ps as [|p ps IH]; simpl; [discriminate|].
  destruct (inlineData p); [discriminate | exact IH].
Qed.

Lemma textOrFallback_nonempty response : textOrFallback response <> EmptyString.
Proof. unfold textOrFallback. now destruct (text response) as [[|c rest]|]. Qed.

(** X15.  When the client is built and the generation call returns: a text
    request resolves with the response text as it is whenever that text is
    not empty, and an infographic request resolves with the data URL of the
    first candidate's parts. *)
Theorem generateInsight_passes_the_response_on :
  forall (Client : Type)
         (newGoogleGenAI : option string -> Completion Client)
         (generateContent : Client -> Request -> Completion Response)
         (apiKey : option string) (ai : Client)
         (image : string) (ty : InsightType) (context : option string)
         (response : Response),
    newGoogleGenAI apiKey = Normal ai ->
    generateContent ai (request image ty context) = Normal response ->
    (forall c rest, ty <> INFOGRAPHIC -> text response = Some (String c rest) ->
       generateInsight newGoogleGenAI generateContent apiKey image ty context
         = Normal (String c rest)) /\
    (ty = INFOGRAPHIC ->
       generateInsight newGoogleGenAI generateContent apiKey image ty context
         = Normal (extractImage (firstCandidateParts response))).
Proof.
  intros Client newGoogleGenAI generateContent apiKey ai image ty context response
         Hai Hcall.
  unfold generateInsight. rewrite Hai. simpl bind. unfold generateInsight_try.
  rewrite Hcall. split.
  - intros c rest Hty Htext.
    destruct (InsightType_eqb ty INFOGRAPHIC) eqn:Heq.
    + apply InsightType_eqb_eq in Heq. contradiction.
    + simpl. unfold textOrFallback. now rewrite Htext.
  - intros ->. reflexivity.
Qed.

Lemma generateInsight_passes_the_response_on_witness :
  generateInsight strictConstructor (answering "The loss is convex.") (Some "key")
    "data:image/png;base64,iVBORw0KGgo=" EXPLAIN None
  = Normal "The loss is convex.".
Proof.
  refine (proj1 (generateInsight_passes_the_response_on unit strictConstructor
                   (answering "The loss is convex.") (Some "key") tt
                   "data:image/png;base64,iVBORw0KGgo=" EXPLAIN None
                   _ eq_refl eq_refl) _ _ _ eq_refl).
  discriminate.
Defined.

End GenerationMore.

(** * The insight panel *)

Section PanelFacts.
Import GeminiService App InsightPanel.

Lemma shown_generateInsight_nonempty
    (Client : Type) (newGoogleGenAI : option string -> Completion Client)
    (generateContent : Client -> Request -> Completion Response)
    (apiKey : option string) image ty context :
  shown (generateInsight newGoogleGenAI generateContent apiKey image ty context)
    <> EmptyString.
Proof.
  unfold generateInsight. destruct (newGoogleGenAI apiKey) as [ai|error]; simpl;
    [|discriminate].
  unfold generateInsight_try.
  destruct (InsightType_eqb ty INFOGRAPHIC);
    destruct (generateContent ai (request image ty context)) as [response|error]; simpl;
    try discriminate.
  - apply extractImage_nonempty.
  - apply textOrFallback_nonempty.
Qed.

(** X16.  Whatever the client library does (its constructor or its call
    may throw, the response may lack data), the text that [handleAction]
    writes into the entry is not empty, so the finished entry passes the
    guard of [downloadInsight]: every finished insight can be downloaded,
    and a loading one cannot. *)
Theorem finished_insight_can_be_downloaded :
  forall (Client : Type)
         (newGoogleGenAI : option string -> Completion Client)
         (generateContent : Client -> Request -> Completion Response)
         (apiKey : option string) image ty context today nowId nowTs,
    let outcome := generateInsight newGoogleGenAI generateContent apiKey image ty context in
    let pending := newInsight ty nowId nowTs in
    shown outcome <> EmptyString /\
    downloadInsight today pending = None /\
    is_Some (downloadInsight today (finished pending (shown outcome))).
Proof.
  intros. pose proof (shown_generateInsight_nonempty Client newGoogleGenAI
                        generateContent apiKey image ty context) as Hne.
  fold outcome in Hne. split; [exact Hne|]. split; [reflexivity|].
  unfold downloadInsight. simpl content. simpl isLoading.
  apply String.eqb_neq in Hne. rewrite Hne. simpl.
  destruct (showsImage (finished pending (shown outcome))); eauto.
Qed.

(** X17.  An infographic entry is shown as a picture, and downloaded as a
    [.png], exactly when the client was built, the call returned, and some
    part of the first candidate carries inline data; with every failure and
    every fallback it is shown as text and downloaded as a [.md]. *)
Theorem infographic_is_a_picture_iff_inline_data :
  forall (Client : Type)
         (newGoogleGenAI : option string -> Completion Client)
         (generateContent : Client -> Request -> Completion Response)
         (apiKey : option string) image context nowId nowTs today,
    let outcome :=
      generateInsight newGoogleGenAI generateContent apiKey image INFOGRAPHIC context in
    let entry := finished (newInsight INFOGRAPHIC nowId nowTs) (shown outcome) in
    (showsImage entry = true <->
     exists ai response p,
       newGoogleGenAI apiKey = Normal ai /\
       generateContent ai (request image INFOGRAPHIC context) = Normal response /\
       p ∈ firstCandidateParts response /\ is_Some (inlineData p)) /\
    body (card entry) = (if showsImage entry then Picture (shown outcome)
                         else Markdown (shown outcome)) /\
    downloadInsight today entry =
      Some (if showsImage entry
            then {| href := DataHref (shown outcome);
                    download := "infographic-" +:+ pretty nowId +:+ "-" +:+ today
                                +:+ ".png" |}
            else {| href := BlobHref (shown outcome) "text/markdown";
                    download := "infographic-" +:+ pretty nowId +:+ "-" +:+ today
                                +:+ ".md" |}).
Proof.
  intros. split; [|split; [reflexivity|]].
  2:{ pose proof (shown_generateInsight_nonempty Client newGoogleGenAI generateContent
                    apiKey image INFOGRAPHIC context) as Hne.
      fold outcome in Hne. apply String.eqb_neq in Hne.
      unfold downloadInsight. simpl content. simpl isLoading. rewrite Hne. simpl.
      now destruct (showsImage entry). }
  subst entry outcome. unfold showsImage. simpl type. simpl content.
  simpl InsightType_eqb. rewrite andb_true_l. unfold generateInsight.
  destruct (newGoogleGenAI apiKey) as [ai|error] eqn:Hai; simpl.
  - unfold generateInsight_try. simpl InsightType_eqb.
    destruct (generateContent ai (request image INFOGRAPHIC context))
      as [response|error] eqn:Hcall; simpl.
    + rewrite extractImage_is_image. split.
      * intros (p & Hp & Hs). now exists ai, response, p.
      * intros (ai' & response' & p & [= <-] & Hcall' & Hp & Hs).
        rewrite Hcall in Hcall'. injection Hcall' as <-. eauto.
    + split; [discriminate|].
      intros (ai' & response' & p & [= <-] & Hcall' & _).
      rewrite Hcall in Hcall'. discriminate.
  - split; [discriminate|]. intros (ai' & response' & p & [=] & _).
Qed.

Lemma panel_snoc l r : panel (l ++ [r]) = Cards (card r :: (card <$> reverse l)).
Proof.
  unfold panel. destruct (l ++ [r]) as [|r' l'] eqn:Hl.
  - now apply app_nil in Hl as [_ Hl].
  - rewrite <- Hl, reverse_app. reflexivity.
Qed.

(** X18.  The panel shows the placeholder for an empty list and otherwise
    one card per entry, newest first: right after an action on a committed
    selection the first card is the new entry's, with the spinner and
    without a download button, followed by the cards that were there. *)
Theorem panel_shows_newest_first :
  forall s sel ty nowId nowTs,
    currentSelection s = Some sel ->
    panel [] = Placeholder /\
    panel (insights (step (ActionClicked ty nowId nowTs) s))
      = Cards ({| cardKey := pretty nowId; heading := label ty;
                  downloadButton := false; body := Thinking |}
               :: (card <$> reverse (insights s))) /\
    (forall l, l <> [] ->
       exists cards, panel l = Cards cards /\ length cards = length l /\
                     forall k r, l !! k = Some r ->
                                 cards !! (length l - S k)%nat = Some (card r)).
Proof.
  intros s sel ty nowId nowTs Hsel. split; [reflexivity|]. split.
  - simpl step. unfold handleAction_begin. rewrite Hsel.
    change (insights (setInsights [Append (newInsight ty nowId nowTs)] s))
      with (insights s ++ [newInsight ty nowId nowTs]).
    apply panel_snoc.
  - intros l Hl. exists (card <$> reverse l). split; [now destruct l|].
    split; [now rewrite length_fmap, length_reverse|].
    intros k r Hk. rewrite list_lookup_fmap.
    assert (k < length l)%nat as Hlt by (eapply lookup_lt_Some; eauto).
    rewrite reverse_lookup by lia.
    replace (length l - S (length l - S k))%nat with k by lia. now rewrite Hk.
Qed.

Lemma panel_shows_newest_first_witness :
  panel (insights (step (ActionClicked SLIDE 1700000000900 1700000000900)
                     (run twoActions initial)))
  = Cards [ {| cardKey := "1700000000900"; heading := "Create Slide";
               downloadButton := false; body := Thinking |};
            {| cardKey := "1700000000001"; heading := "Generate Code";
               downloadButton := false; body := Thinking |};
            {| cardKey := "1700000000000"; heading := "Explain";
               downloadButton := false; body := Thinking |} ].
Proof.
  destruct (panel_shows_newest_first (run twoActions initial)
              {| pageNumber := 1;
                 rect := {| x := 10; y := 10; width := 50; height := 50 |};
                 imageBase64 := "data:image/png;base64,iVBORw0KGgo=" |}
              SLIDE 1700000000900 1700000000900 eq_refl) as (_ & -> & _).
  vm_compute. reflexivity.
Defined.

Lemma append_length a b : String.length (a +:+ b) = (String.length a + String.length b)%nat.
Proof. induction a as [|c a IH]; simpl; [reflexivity | now rewrite IH]. Qed.

Lemma append_inv_tail c : forall a b, a +:+ c = b +:+ c -> a = b.
Proof.
  induction a as [|x a IH]; intros [|y b] H; trivial.
  - apply (f_equal String.length) in H. rewrite !append_length in H. simpl in H. lia.
  - apply (f_equal String.length) in H. rewrite !append_length in H. simpl in H. lia.
  - simpl in H. injection H as -> H. now rewrite (IH b H).
Qed.

(** X19.  Downloads of the same kind on the same day get different file
    names when the ids differ: from equal names of two entries of the same
    type, both pictures or both text, equal ids follow. *)
Theorem download_names_tell_ids_apart :
  forall today i j li lj,
    downloadInsight today i = Some li ->
    downloadInsight today j = Some lj ->
    type i = type j -> showsImage i = showsImage j ->
    download li = download lj ->
    id i = id j.
Proof.
  intros today i j li lj Hi Hj Hty Himg Hname. unfold downloadInsight in Hi, Hj.
  destruct (String.eqb (content i) EmptyString || isLoading i); [discriminate|].
  destruct (String.eqb (content j) EmptyString || isLoading j); [discriminate|].
  rewrite <- Himg in Hj. rewrite <- Hty in Hj.
  destruct (showsImage i); injection Hi as <-; injection Hj as <-; simpl in Hname.
  - injection Hname as Hname.
    change (id i +:+ ("-" +:+ today +:+ ".png") = id j +:+ ("-" +:+ today +:+ ".png"))
      in Hname.
    now apply append_inv_tail in Hname.
  - apply (inj (String.app _)) in Hname.
    apply (inj (String.app "-")) in Hname.
    now apply append_inv_tail in Hname.
Qed.

Lemma download_names_tell_ids_apart_witness :
  id (mkInsight "1700000000000" CODE "x = 1" false 1700000000000)
  = id (mkInsight "1700000000000" CODE "y = 2" false 1700000000003).
Proof.
  eapply (download_names_tell_ids_apart "2026-11-02"
            (mkInsight "1700000000000" CODE "x = 1" false 1700000000000)
            (mkInsight "1700000000000" CODE "y = 2" false 1700000000003));
    reflexivity.
Defined.

End PanelFacts.

(** * The sidebar resizer *)

Section ResizerFacts.
Import Resizer.

Lemma resizer_step fits ev s :
  300 <= panelWidth s ->
  300 <= panelWidth (step fits ev s) /\
  (panelWidth (step fits ev s) = panelWidth s \/
   exists clientWidth clientX,
     ev = WindowMove clientWidth clientX /\ isResizing s = true /\
     panelWidth (step fits ev s) = clientWidth - clientX /\
     fits (clientWidth - clientX) clientWidth = true).
Proof.
  intros Hmin. destruct ev as [| |clientWidth clientX]; simpl.
  - split; [exact Hmin | now left].
  - destruct (isResizing s); split; trivial; now left.
  - unfold resize. destruct (isResizing s) eqn:Hres; [|split; [exact Hmin | now left]].
    destruct ((300 <=? clientWidth - clientX) && fits (clientWidth - clientX) clientWidth)
      eqn:Htest; [|split; [exact Hmin | now left]].
    apply andb_prop in Htest as [Hlow Hfits]. apply Z.leb_le in Hlow. simpl.
    split; [exact Hlow|]. right. now exists clientWidth, clientX.
Qed.

(** X20.  However the handle is dragged, the sidebar is never narrower than
    300: starting from a width of at least 300 (it starts at 400), every
    width reached is at least 300, and it is either the width before or a
    width that a move event proposed while resizing and that passed the
    70 percent test. *)
Theorem panel_width_stays_at_least_300 :
  forall (fits : Z -> Z -> bool) trace s,
    300 <= panelWidth s ->
    300 <= panelWidth (run fits trace s) /\
    (panelWidth (run fits trace s) = panelWidth s \/
     exists clientWidth clientX,
       WindowMove clientWidth clientX ∈ trace /\
       panelWidth (run fits trace s) = clientWidth - clientX /\
       fits (clientWidth - clientX) clientWidth = true /\
       exists earlier later,
         trace = earlier ++ WindowMove clientWidth clientX :: later /\
         isResizing (run fits earlier s) = true).
Proof.
  intros fits trace. induction trace as [|ev trace IH]; intros s Hmin.
  - split; [exact Hmin | now left].
  - change (run fits (ev :: trace) s) with (run fits trace (step fits ev s)).
    destruct (resizer_step fits ev s Hmin) as [Hmin' Hstep].
    destruct (IH _ Hmin') as [Hfinal Hwhich]. split; [exact Hfinal|].
    destruct Hwhich as [Hsame | (cw & cx & Hin & Hw & Hfits & pre & post & -> & Hres)].
    + rewrite Hsame.
      destruct Hstep as [Hkeep | (cw & cx & -> & Hres & Hw & Hfits)].
      * now left.
      * right. exists cw, cx. split; [left|]. split; [exact Hw|].
        split; [exact Hfits|]. now exists [], trace.
    + right. exists cw, cx. split; [now right|]. split; [exact Hw|].
      split; [exact Hfits|]. now exists (ev :: pre), post.
Qed.

Lemma panel_width_stays_at_least_300_witness :
  300 <= panelWidth
           (run (fun w c => 10 * w <=? 7 * c)
                [WindowMove 1280 700; HandleDown; WindowMove 1280 1100;
                 WindowMove 1280 800; WindowMove 1280 100; WindowUp]
                initial).
Proof.
  apply (panel_width_stays_at_least_300 (fun w c => 10 * w <=? 7 * c)).
  simpl. lia.
Defined.

End ResizerFacts.

(** * Rendering a page *)

Section RenderFacts.
Import PageRender.

(** X21.  [renderPage] never rejects.  Without a document or a canvas it
    returns at once and leaves the [rendering] flag as it was; otherwise,
    whether [getPage] or the drawing throws, or no 2D context is given, or
    all goes well, it ends with [rendering] set to false. *)
Theorem renderPage_always_ends_the_spinner :
  forall env rendering,
    renderPage env rendering =
      Normal (if docLoaded env && canvasMounted env then false else rendering).
Proof.
  intros [doc canvas page ctx draw] rendering. unfold renderPage, renderPage_try. simpl.
  destruct doc, canvas; simpl; try reflexivity.
  destruct page as [[]|error]; simpl; [|reflexivity].
  destruct ctx; simpl; [|reflexivity]. now destruct draw as [[]|error].
Qed.

End RenderFacts.

(** * The release, with the renders made explicit *)

Section RenderedRelease.
Import RenderedPage.









End RenderedRelease.

(** * The lifecycle of an entry whose id is its own *)

Section OwnLifecycle.
Import App.








End OwnLifecycle.
